(** * StreamTogether: the room session and event-synchronisation engine

    A shallow embedding of the Socket.IO handlers of [server.js]
    (the [io.on('connection', ...)] block, lines 99-276) together with the
    two global maps [rooms] and [users] they mutate, and of the part of
    Socket.IO they rely on: the table of broadcast rooms behind
    [socket.join], [socket.to(..).emit] and [io.to(..).emit].

    Socket.IO is modelled by its documented contract: every socket is put in
    a room named by its own id when it connects, [socket.join(r)] adds it to
    room [r], a closing socket leaves all its rooms before its [disconnect]
    handlers run, [io.to(r).emit] reaches the sockets in room [r], and
    [socket.to(r).emit] reaches them except the emitting socket. *)

From Stdlib Require Import PrimFloat.
From stdpp Require Import gmap strings list fin_maps.

Open Scope string_scope.

(** ** JavaScript values

    Event payloads arrive as decoded JSON, so a field is [undefined] (absent),
    [null], a boolean, a number, a string, or an array/object. Arrays and
    objects are never inspected by the server: they are kept as an opaque
    reference. Numbers are IEEE binary64, as in JavaScript. *)

Inductive value :=
| VUndefined
| VNull
| VBool (b : bool)
| VNumber (x : float)
| VString (s : string)
| VObject (ref : nat).

(** ToBoolean: [undefined], [null], [false], [0], [-0], [NaN] and the empty
    string are falsy; everything else is truthy. *)
Definition truthy (v : value) : bool :=
  match v with
  | VUndefined | VNull => false
  | VBool b => b
  | VNumber x => negb (PrimFloat.eqb x 0 || PrimFloat.is_nan x)
  | VString s => negb (String.eqb s "")
  | VObject _ => true
  end.

(** [a || b] *)
Definition js_or (a b : value) : value := if truthy a then a else b.

(** [v === 'lit'] for a string literal. *)
Definition is_str (v : value) (lit : string) : bool :=
  match v with
  | VString s => String.eqb s lit
  | _ => false
  end.

(** [v === 0] for a value [v]: strict equality with the number zero
    (IEEE comparison, so [-0 === 0] holds and [NaN === 0] does not). *)
Definition is_zero (v : value) : bool :=
  match v with
  | VNumber x => PrimFloat.eqb x 0
  | _ => false
  end.

(** ** JavaScript [Set] of socket ids

    A [Set] iterates in insertion order and [Array.from] exposes that order
    in the room snapshot, so a member set is a duplicate-free list. *)

Definition set_add (x : string) (l : list string) : list string :=
  if decide (x ∈ l) then l else l ++ [x].

Definition set_delete (x : string) (l : list string) : list string :=
  filter (λ y, y ≠ x) l.

(** ** Server state *)

Inductive videoType := upload | youtube.

Record PlaybackState := {
  isPlaying : bool;
  currentTime : value;
  playbackRate : value
}.

Record Room := {
  room_users : list string;
  currentVideo : value;
  room_videoType : option videoType;
  playbackState : PlaybackState
}.

Record User := {
  roomId : string;
  username : value
}.

(** [sockets] are the live connections; [adapter] is Socket.IO's table of
    broadcast rooms (room name to the sockets that joined it); [rooms] and
    [users] are the two [Map]s of server.js. *)
Record State := {
  sockets : gset string;
  adapter : gmap string (gset string);
  rooms : gmap string Room;
  users : gmap string User
}.

Definition init : State :=
  {| sockets := ∅; adapter := ∅; rooms := ∅; users := ∅ |}.

(** The playback state of a fresh room and of a room after a video change. *)
Definition default_playback : PlaybackState :=
  {| isPlaying := false; currentTime := VNumber 0; playbackRate := VNumber 1 |}.

Definition new_room : Room :=
  {| room_users := []; currentVideo := VNull; room_videoType := None;
     playbackState := default_playback |}.

(** The member set of a room identifier; empty when the store has no such
    room. *)
Definition members (st : State) (r : string) : list string :=
  from_option room_users [] (rooms st !! r).

(** ** Socket.IO broadcast rooms *)

(** The sockets currently in broadcast room [r]. *)
Definition in_room (a : gmap string (gset string)) (r : string) : gset string :=
  default ∅ (a !! r).

(** [socket.join(r)] *)
Definition socket_join (a : gmap string (gset string)) (s r : string)
  : gmap string (gset string) :=
  <[r := {[s]} ∪ in_room a r]> a.

(** What Socket.IO does when a socket closes: it leaves every room. *)
Definition leave_all (a : gmap string (gset string)) (s : string)
  : gmap string (gset string) :=
  (λ S, S ∖ {[s]}) <$> a.

(** ** Messages *)

(** Payload of [join-room]; room identifiers are strings. *)
Record JoinData := { jd_roomId : string; jd_username : value }.

(** Payload of [video-event]. The server reads [type], [currentTime] and
    [playbackRate]; [ve_rest] stands for whatever else the client put in the
    object, which is relayed untouched. *)
Record VideoEventData := {
  ve_type : value;
  ve_currentTime : value;
  ve_playbackRate : value;
  ve_rest : value
}.

Record YoutubeData := { videoId : value; title : value }.
Record UploadedData := { fileUrl : value; fileName : value }.

(** The three WebRTC signalling messages share one shape: a target and an
    opaque payload ([offer], [answer] or [candidate]). *)
Inductive SignalKind := offer | answer | ice_candidate.
Record SignalData := { target : string; payload : value }.

(** What the server sends. *)
Inductive OutMsg :=
| UserJoined (userId : string) (name : value)
| RoomState (video : value) (vt : option videoType) (ps : PlaybackState)
            (us : list (string * value))
| VideoEventOut (data : VideoEventData)
| YoutubeVideoChanged (vid ttl : value)
| UploadedVideoChanged (url fname : value)
| ChatMessageOut (userId : string) (name message : value) (timestamp : string)
| SignalOut (kind : SignalKind) (body : value) (from : string)
| UserLeft (userId : string) (name : value).

(** One [emit]: the sockets it reaches and the message. *)
Record Emit := { rcpts : gset string; msg : OutMsg }.

(** [socket.emit]: to the socket itself. *)
Definition emit_self (s : string) (m : OutMsg) : Emit :=
  {| rcpts := {[s]}; msg := m |}.

(** [socket.to(r).emit]: to every socket in broadcast room [r] but [s]. *)
Definition emit_others (a : gmap string (gset string)) (s r : string)
    (m : OutMsg) : Emit :=
  {| rcpts := in_room a r ∖ {[s]}; msg := m |}.

(** [io.to(r).emit]: to every socket in broadcast room [r]. *)
Definition emit_all (a : gmap string (gset string)) (r : string)
    (m : OutMsg) : Emit :=
  {| rcpts := in_room a r; msg := m |}.

(** Socket [t] receives message [m] among the emits [out]. *)
Definition delivered (out : list Emit) (t : string) (m : OutMsg) : Prop :=
  ∃ e, e ∈ out ∧ msg e = m ∧ t ∈ rcpts e.

Definition receives (out : list Emit) (t : string) : Prop :=
  ∃ m, delivered out t m.

(** ** Handlers *)

Definition set_rooms (st : State) (rs : gmap string Room) : State :=
  {| sockets := sockets st; adapter := adapter st; rooms := rs;
     users := users st |}.

Definition with_users (room : Room) (us : list string) : Room :=
  {| room_users := us; currentVideo := currentVideo room;
     room_videoType := room_videoType room;
     playbackState := playbackState room |}.

Definition with_playback (room : Room) (ps : PlaybackState) : Room :=
  {| room_users := room_users room; currentVideo := currentVideo room;
     room_videoType := room_videoType room; playbackState := ps |}.

(** [users.get(userId)?.username || 'Unknown'] *)
Definition display_name (us : gmap string User) (userId : string) : value :=
  js_or (from_option username VUndefined (us !! userId)) (VString "Unknown").

(** A new connection: Socket.IO puts the socket in the room named by its own
    id before the [connection] callback runs; the callback only installs the
    handlers below. *)
Definition connect (st : State) (s : string) : State * list Emit :=
  ({| sockets := {[s]} ∪ sockets st; adapter := socket_join (adapter st) s s;
      rooms := rooms st; users := users st |}, []).

(** [socket.on('join-room', ...)], lines 104-145. *)
Definition join_room (st : State) (s : string) (data : JoinData)
  : State * list Emit :=
  let r := jd_roomId data in
  let adapter1 := socket_join (adapter st) s r in
  let users1 :=
    <[s := {| roomId := r; username := jd_username data |}]> (users st) in
  let rooms1 :=
    match rooms st !! r with
    | Some _ => rooms st
    | None => <[r := new_room]> (rooms st)
    end in
  let room := default new_room (rooms1 !! r) in
  let room1 := with_users room (set_add s (room_users room)) in
  ({| sockets := sockets st; adapter := adapter1;
      rooms := <[r := room1]> rooms1; users := users1 |},
   [ emit_others adapter1 s r (UserJoined s (jd_username data));
     emit_self s
       (RoomState (currentVideo room1) (room_videoType room1)
          (playbackState room1)
          (map (λ userId, (userId, display_name users1 userId))
               (room_users room1))) ]).

(** The [if / else if] chain of lines 155-165. *)
Definition apply_video_event (ps : PlaybackState) (data : VideoEventData)
  : PlaybackState :=
  if is_str (ve_type data) "play" then
    {| isPlaying := true;
       currentTime := js_or (ve_currentTime data) (VNumber 0);
       playbackRate := playbackRate ps |}
  else if is_str (ve_type data) "pause" then
    {| isPlaying := false;
       currentTime := js_or (ve_currentTime data) (VNumber 0);
       playbackRate := playbackRate ps |}
  else if is_str (ve_type data) "seek" then
    {| isPlaying := isPlaying ps;
       currentTime := js_or (ve_currentTime data) (VNumber 0);
       playbackRate := playbackRate ps |}
  else if is_str (ve_type data) "rate-change" then
    {| isPlaying := isPlaying ps;
       currentTime := currentTime ps;
       playbackRate := js_or (ve_playbackRate data) (VNumber 1) |}
  else ps.

(** [socket.on('video-event', ...)], lines 148-169. *)
Definition video_event (st : State) (s : string) (data : VideoEventData)
  : State * list Emit :=
  match users st !! s with
  | None => (st, [])
  | Some user =>
    match rooms st !! roomId user with
    | None => (st, [])
    | Some room =>
      let room1 :=
        with_playback room (apply_video_event (playbackState room) data) in
      (set_rooms st (<[roomId user := room1]> (rooms st)),
       [ emit_others (adapter st) s (roomId user) (VideoEventOut data) ])
    end
  end.

(** The three assignments shared by the two video-change handlers. *)
Definition change_video (room : Room) (ref : value) (kind : videoType) : Room :=
  {| room_users := room_users room; currentVideo := ref;
     room_videoType := Some kind;
     playbackState :=
       {| isPlaying := false; currentTime := VNumber 0;
          playbackRate := VNumber 1 |} |}.

(** [socket.on('change-youtube-video', ...)], lines 172-190. *)
Definition change_youtube_video (st : State) (s : string) (data : YoutubeData)
  : State * list Emit :=
  match users st !! s with
  | None => (st, [])
  | Some user =>
    match rooms st !! roomId user with
    | None => (st, [])
    | Some room =>
      (set_rooms st
         (<[roomId user := change_video room (videoId data) youtube]> (rooms st)),
       [ emit_all (adapter st) (roomId user)
           (YoutubeVideoChanged (videoId data) (title data)) ])
    end
  end.

(** [socket.on('change-uploaded-video', ...)], lines 193-211. *)
Definition change_uploaded_video (st : State) (s : string) (data : UploadedData)
  : State * list Emit :=
  match users st !! s with
  | None => (st, [])
  | Some user =>
    match rooms st !! roomId user with
    | None => (st, [])
    | Some room =>
      (set_rooms st
         (<[roomId user := change_video room (fileUrl data) upload]> (rooms st)),
       [ emit_all (adapter st) (roomId user)
           (UploadedVideoChanged (fileUrl data) (fileName data)) ])
    end
  end.

(** [socket.on('chat-message', ...)], lines 214-227. [now] is the reading of
    [new Date().toISOString()]. *)
Definition chat_message (st : State) (s : string) (message : value)
    (now : string) : State * list Emit :=
  match users st !! s with
  | None => (st, [])
  | Some user =>
    (st, [ emit_all (adapter st) (roomId user)
             (ChatMessageOut s (username user) message now) ])
  end.

(** [webrtc-offer], [webrtc-answer], [webrtc-ice-candidate], lines 230-249. *)
Definition webrtc_signal (st : State) (s : string) (kind : SignalKind)
    (data : SignalData) : State * list Emit :=
  (st, [ emit_others (adapter st) s (target data)
           (SignalOut kind (payload data) s) ]).

(** [socket.on('disconnect', ...)], lines 252-275. Socket.IO has already
    taken the socket out of every broadcast room when the handler runs. *)
Definition disconnect (st : State) (s : string) : State * list Emit :=
  let sockets1 := sockets st ∖ {[s]} in
  let adapter1 := leave_all (adapter st) s in
  match users st !! s with
  | None =>
    ({| sockets := sockets1; adapter := adapter1; rooms := rooms st;
        users := users st |}, [])
  | Some user =>
    let '(rooms1, out) :=
      match rooms st !! roomId user with
      | None => (rooms st, [])
      | Some room =>
        let us := set_delete s (room_users room) in
        if decide (length us = 0) then (delete (roomId user) (rooms st), [])
        else (<[roomId user := with_users room us]> (rooms st),
              [ emit_others adapter1 s (roomId user)
                  (UserLeft s (username user)) ])
      end in
    ({| sockets := sockets1; adapter := adapter1; rooms := rooms1;
        users := delete s (users st) |}, out)
  end.

(** ** Runs of the server *)

Inductive Event :=
| Connect (s : string)
| JoinRoom (s : string) (data : JoinData)
| VideoEvent (s : string) (data : VideoEventData)
| ChangeYoutubeVideo (s : string) (data : YoutubeData)
| ChangeUploadedVideo (s : string) (data : UploadedData)
| ChatMessage (s : string) (message : value) (now : string)
| Webrtc (s : string) (kind : SignalKind) (data : SignalData)
| Disconnect (s : string).

Definition handle (st : State) (ev : Event) : State * list Emit :=
  match ev with
  | Connect s => connect st s
  | JoinRoom s data => join_room st s data
  | VideoEvent s data => video_event st s data
  | ChangeYoutubeVideo s data => change_youtube_video st s data
  | ChangeUploadedVideo s data => change_uploaded_video st s data
  | ChatMessage s message now => chat_message st s message now
  | Webrtc s kind data => webrtc_signal st s kind data
  | Disconnect s => disconnect st s
  end.

(** The ids that opened a connection in a history. *)
Fixpoint connected_ids (tr : list Event) : list string :=
  match tr with
  | [] => []
  | Connect s :: tr => s :: connected_ids tr
  | _ :: tr => connected_ids tr
  end.

(** An event can occur after history [tr] in state [st] when it opens a
    connection under an id never used before (Socket.IO draws a new random id
    for each connection), or comes from a live socket. *)
Definition enabled (tr : list Event) (st : State) (ev : Event) : Prop :=
  match ev with
  | Connect s => s ∉ connected_ids tr
  | JoinRoom s _ | VideoEvent s _ | ChangeYoutubeVideo s _
  | ChangeUploadedVideo s _ | ChatMessage s _ _ | Webrtc s _ _
  | Disconnect s => s ∈ sockets st
  end.

(** [run tr st]: the server, started with both maps empty, is in state [st]
    after the events [tr] (most recent first). *)
Inductive run : list Event → State → Prop :=
| run_init : run [] init
| run_step tr st ev :
    run tr st → enabled tr st ev → run (ev :: tr) (handle st ev).1.

(** A history checked event by event: [enabled], decided, and the state the
    events lead to when each of them can occur. *)
Definition enabledb (tr : list Event) (st : State) (ev : Event) : bool :=
  match ev with
  | Connect s => bool_decide (s ∉ connected_ids tr)
  | JoinRoom s _ | VideoEvent s _ | ChangeYoutubeVideo s _
  | ChangeUploadedVideo s _ | ChatMessage s _ _ | Webrtc s _ _
  | Disconnect s => bool_decide (s ∈ sockets st)
  end.

Fixpoint run_from (tr : list Event) (st : State) (evs : list Event)
  : option State :=
  match evs with
  | [] => Some st
  | ev :: evs =>
    if enabledb tr st ev then run_from (ev :: tr) (handle st ev).1 evs
    else None
  end.

(** The state after a list of events, oldest first. *)
Definition after (evs : list Event) : State :=
  foldl (λ st ev, (handle st ev).1) init evs.

(** ** Invariants *)

(** Every room in the store has at least one member. *)
Definition rooms_nonempty (st : State) : Prop :=
  ∀ r room, rooms st !! r = Some room → room_users room ≠ [].

(** A registered participant is a live socket, sits in the broadcast room of
    the room its record names, and is in that room's member set. *)
Definition registry_ok (st : State) : Prop :=
  ∀ s user, users st !! s = Some user →
    s ∈ sockets st ∧ s ∈ in_room (adapter st) (roomId user) ∧
    s ∈ members st (roomId user).

(** Member sets only hold ids that once opened a connection. *)
Definition members_known (tr : list Event) (st : State) : Prop :=
  ∀ r t, t ∈ members st r → t ∈ connected_ids tr.

(** A member that is still connected is in the room's broadcast room. *)
Definition live_members_joined (st : State) : Prop :=
  ∀ r t, t ∈ members st r → t ∈ sockets st → t ∈ in_room (adapter st) r.

(** A socket in broadcast room [r] is live, and is either the socket whose
    id is [r] or a member of room [r]. *)
Definition adapter_ok (st : State) : Prop :=
  ∀ r t, t ∈ in_room (adapter st) r →
    t ∈ sockets st ∧ (t = r ∨ t ∈ members st r).

(** Every live socket is in the broadcast room named by its own id. *)
Definition own_room (st : State) : Prop :=
  ∀ s, s ∈ sockets st → s ∈ in_room (adapter st) s.

(** The stored playback rate is always a truthy value. *)
Definition rate_truthy (st : State) : Prop :=
  ∀ r room, rooms st !! r = Some room →
    truthy (playbackRate (playbackState room)) = true.

(** Handlers that leave connections, broadcast rooms, the registry and every
    member set as they were. *)
Definition same_membership (st st' : State) : Prop :=
  sockets st' = sockets st ∧ adapter st' = adapter st ∧
  users st' = users st ∧ ∀ r, members st' r = members st r.

(** ** Vocabulary of the statements *)

(** The shape shared by [video-event] and the two video-change handlers:
    behind the guard [if (!user || !rooms.has(user.roomId)) return], the
    sender's room is updated in place. *)
Definition guarded_update (st : State) (s : string) (f : Room → Room) : State :=
  match users st !! s with
  | None => st
  | Some user =>
    match rooms st !! roomId user with
    | None => st
    | Some room => set_rooms st (<[roomId user := f room]> (rooms st))
    end
  end.

(** The event kinds the handler knows. *)
Definition recognised (v : value) : bool :=
  is_str v "play" || is_str v "pause" || is_str v "seek" ||
  is_str v "rate-change".

(** [play], [pause] and [seek]: the kinds that assign [currentTime]. *)
Definition time_kind (v : value) : bool :=
  is_str v "play" || is_str v "pause" || is_str v "seek".

(** [v === x] for a number [x]. *)
Definition is_num (v : value) (x : float) : bool :=
  match v with
  | VNumber y => PrimFloat.eqb y x
  | _ => false
  end.

(** The member list of the snapshot [join-room] sends back to the caller. *)
Definition snapshot_users (st : State) (s : string) (data : JoinData)
  : list (string * value) :=
  let st' := (join_room st s data).1 in
  map (λ userId, (userId, display_name (users st') userId))
      (members st' (jd_roomId data)).

(** ** Readings the handlers do not meet

    Four statements of the specification, put the way they are worded, so
    that they can be tested against the handlers. *)


(** C3 as worded: an event of unknown kind changes no room and reaches
    nobody. *)
Definition unknown_event_dropped (st : State) (s : string)
    (data : VideoEventData) : Prop :=
  recognised (ve_type data) = false →
  rooms (video_event st s data).1 = rooms st ∧
  ∀ t, ¬ receives (video_event st s data).2 t.

(** C4 as worded: an event that omits its numeric field leaves that field of
    the room's playback state as it was. *)
Definition absent_field_kept (st : State) (s : string) (data : VideoEventData)
  : Prop :=
  ∀ user room room',
    users st !! s = Some user → rooms st !! roomId user = Some room →
    rooms (video_event st s data).1 !! roomId user = Some room' →
    (time_kind (ve_type data) = true → ve_currentTime data = VUndefined →
     currentTime (playbackState room') = currentTime (playbackState room)) ∧
    (is_str (ve_type data) "rate-change" = true →
     ve_playbackRate data = VUndefined →
     playbackRate (playbackState room') = playbackRate (playbackState room)).

(** C7 as worded: a signalling message leaves the state untouched, reaches
    nobody but the socket named as target, and reaches nobody at all when the
    target is not connected. *)
Definition relay_only_to_target (st : State) (s : string) (kind : SignalKind)
    (data : SignalData) : Prop :=
  (webrtc_signal st s kind data).1 = st ∧
  (∀ t, receives (webrtc_signal st s kind data).2 t → t = target data) ∧
  (target data ∉ sockets st →
   ∀ t, ¬ receives (webrtc_signal st s kind data).2 t).

(** ** Sample runs *)

Definition join_as (r name : string) : JoinData :=
  {| jd_roomId := r; jd_username := VString name |}.

Definition video_ev (kind : string) (time rate : value) : VideoEventData :=
  {| ve_type := VString kind; ve_currentTime := time; ve_playbackRate := rate;
     ve_rest := VUndefined |}.

(** Alice connects and joins r1. *)
Definition alice_joins : list Event :=
  [Connect "a"; JoinRoom "a" (join_as "r1" "alice")].

(** Bob follows her into r1. *)
Definition pair_joins : list Event :=
  alice_joins ++ [Connect "b"; JoinRoom "b" (join_as "r1" "bob")].

(** Alice seeks to 42 s and sets the rate to 1.5. *)
Definition alice_seeks : list Event :=
  alice_joins ++
  [VideoEvent "a" (video_ev "seek" (VNumber 42) VUndefined);
   VideoEvent "a" (video_ev "rate-change" VUndefined (VNumber 1.5))].

(** The room r1 as Alice has left it in [alice_seeks]. *)
Definition room_at_42 : Room :=
  {| room_users := ["a"]; currentVideo := VNull; room_videoType := None;
     playbackState := {| isPlaying := false; currentTime := VNumber 42;
                         playbackRate := VNumber 1.5 |} |}.

Definition alice_in_r1 : User :=
  {| roomId := "r1"; username := VString "alice" |}.

(** Alice moves on to r2 and disconnects, then Bob connects: r1 still lists
    her id, which the registry no longer knows. *)
Definition bob_after_alice : list Event :=
  alice_joins ++
  [JoinRoom "a" (join_as "r2" "alice"); Disconnect "a"; Connect "b"].

(** Alice and Bob are in r1 and Carol has only connected. *)
Definition pair_and_carol : list Event := pair_joins ++ [Connect "c"].

(** Alice and Bob are in r1, where each learnt the other's connection id;
    Bob then joins a room whose identifier is Alice's connection id, and
    Carol comes into r1. *)
Definition bob_listens_in : list Event :=
  pair_joins ++
  [JoinRoom "b" (join_as "a" "bob"); Connect "c";
   JoinRoom "c" (join_as "r1" "carol")].

(** Alice and Bob are in r1, Carol and Dave in r2. *)
Definition two_rooms : list Event :=
  pair_and_carol ++
  [JoinRoom "c" (join_as "r2" "carol"); Connect "d";
   JoinRoom "d" (join_as "r2" "dave")].

(** ** Member sets read off the history

    What the spec calls a room's member set, told from the joins and leaves
    alone, without looking at the store: a join-room adds the sender to the
    room it names, and a disconnect takes the sender out of the room it
    joined last. [tr] is most recent first. *)

(** The room a socket joined last, if it has joined one and not left. *)
Fixpoint last_room (tr : list Event) (s : string) : option string :=
  match tr with
  | [] => None
  | JoinRoom s' data :: tr =>
    if decide (s = s') then Some (jd_roomId data) else last_room tr s
  | Disconnect s' :: tr => if decide (s = s') then None else last_room tr s
  | _ :: tr => last_room tr s
  end.

Fixpoint joined_members (tr : list Event) (r : string) : list string :=
  match tr with
  | [] => []
  | JoinRoom s data :: tr =>
    if decide (r = jd_roomId data) then set_add s (joined_members tr r)
    else joined_members tr r
  | Disconnect s :: tr =>
    match last_room tr s with
    | Some r0 =>
      if decide (r = r0) then set_delete s (joined_members tr r)
      else joined_members tr r
    | None => joined_members tr r
    end
  | _ :: tr => joined_members tr r
  end.

(** The store and the registry agree with the history. *)
Definition history_ok (tr : list Event) (st : State) : Prop :=
  (∀ r, members st r = joined_members tr r) ∧
  (∀ s, roomId <$> users st !! s = last_room tr s).

(** Bob stays behind in r1 when Alice disconnects. *)
Definition alice_leaves_bob : list Event := pair_joins ++ [Disconnect "a"].

(** ** Further invariants *)

(** The stored playback time is the number 0 or a truthy value: it is never
    [undefined], [null], [NaN], [-0], [false] or the empty string. *)
Definition time_ok (st : State) : Prop :=
  ∀ r room, rooms st !! r = Some room →
    currentTime (playbackState room) = VNumber 0 ∨
    truthy (currentTime (playbackState room)) = true.

(** A room without a video kind has no video reference either. *)
Definition video_ref_ok (st : State) : Prop :=
  ∀ r room, rooms st !! r = Some room →
    room_videoType room = None → currentVideo room = VNull.

(** ** The HTTP side of server.js *)

(** [needle] occurs somewhere in [hay]. *)
Fixpoint contains (needle hay : string) : bool :=
  String.prefix needle hay ||
  match hay with
  | EmptyString => false
  | String _ rest => contains needle rest
  end.

(** The alternatives of [allowedTypes = /mp4|mkv|avi|mov|webm/]. *)
Definition allowed_tokens : list string := ["mp4"; "mkv"; "avi"; "mov"; "webm"].

(** [allowedTypes.test(s)]: the pattern has no anchors and no flags, so the
    test succeeds when one of the alternatives occurs anywhere in [s]. *)
Definition allowedTypes_test (s : string) : bool :=
  contains "mp4" s || contains "mkv" s || contains "avi" s ||
  contains "mov" s || contains "webm" s.

(** The array literal of line 92. *)
Definition video_extensions : list string :=
  [".mp4"; ".mkv"; ".avi"; ".mov"; ".webm"].

(** What multer hands to [fileFilter] and [filename]. *)
Record UploadFile := { originalname : string; mimetype : string }.

(** An error is a [multer.MulterError], which carries a code, or any other
    [Error]. *)
Inductive HttpError :=
| PlainError (message : value)
| MulterError (code : value) (message : value).

(** The two ways [fileFilter] calls back: [cb(null, true)] or
    [cb(new Error(..))]. *)
Inductive FilterResult := Accept | Reject (e : HttpError).

(** [fileFilter], lines 46-56. [lower_ext name] stands for
    [path.extname(name).toLowerCase()], which Node provides. *)
Definition fileFilter (lower_ext : string → string) (file : UploadFile)
  : FilterResult :=
  let extname := allowedTypes_test (lower_ext (originalname file)) in
  let mimetype_ok := allowedTypes_test (mimetype file) in
  if mimetype_ok && extname then Accept
  else Reject (PlainError (VString "Only video files are allowed")).

(** [filename], lines 35-38: [uuid] is the value [uuidv4()] returns. *)
Definition storage_filename (uuid : string) (file : UploadFile) : string :=
  uuid ++ "-" ++ originalname file.

(** [req.file] as the upload route reads it. *)
Record StoredFile := {
  sf_filename : string;
  sf_originalname : string;
  sf_size : N
}.

Inductive Body :=
| ErrorBody (error : value)
| UploadBody (success : bool) (file_url file_name : string) (file_size : N)
| VideosBody (videos : list string).

(** [res.status(..).json(..)]; [res.json] alone answers with status 200. *)
Record Response := { status : nat; body : Body }.

(** [app.post('/api/upload', ...)], lines 69-81, after multer has run:
    [file] is [req.file], absent when the request carried no file. *)
Definition upload_route (file : option StoredFile) : Response :=
  match file with
  | None => {| status := 400; body := ErrorBody (VString "No file uploaded") |}
  | Some f =>
    {| status := 200;
       body := UploadBody true ("/uploads/" ++ sf_filename f)
                 (sf_originalname f) (sf_size f) |}
  end.

(** The answer to an upload that multer stored under the name [filename]
    gives it. *)
Definition upload_stored (uuid : string) (file : UploadFile) (size : N)
  : Response :=
  upload_route
    (Some {| sf_filename := storage_filename uuid file;
             sf_originalname := originalname file; sf_size := size |}).

(** [app.get('/api/videos', ...)], lines 84-97: [listing] is what
    [fs.readdir('uploads')] reports, [None] for an error. *)
Definition videos_route (lower_ext : string → string)
    (listing : option (list string)) : Response :=
  match listing with
  | None =>
    {| status := 500;
       body := ErrorBody (VString "Unable to read uploads directory") |}
  | Some files =>
    {| status := 200;
       body := VideosBody
                 (filter (λ file, lower_ext file ∈ video_extensions) files) |}
  end.

(** The error-handling middleware, lines 279-286. *)
Definition error_handler (error : HttpError) : Response :=
  match error with
  | MulterError code message =>
    if is_str code "LIMIT_FILE_SIZE" then
      {| status := 400;
         body := ErrorBody (VString "File too large. Maximum size is 200MB.") |}
    else {| status := 500; body := ErrorBody message |}
  | PlainError message => {| status := 500; body := ErrorBody message |}
  end.

(** [error.message] *)
Definition error_message (error : HttpError) : value :=
  match error with
  | PlainError message => message
  | MulterError _ message => message
  end.

(** The part of a name from its last dot on, empty without a dot. This is
    not Node's function: it keeps upper case and gives a dot-file's whole
    name. It agrees with [path.extname(name).toLowerCase()] on lower-case
    file names without directory part whose only dots come after the first
    character, such as ["clip.mp4"], and the sample files are of that kind;
    no theorem depends on it. *)
Fixpoint last_dot_suffix (name : string) : string :=
  match name with
  | EmptyString => EmptyString
  | String c rest =>
    if contains "." rest then last_dot_suffix rest
    else if String.eqb (String c EmptyString) "." then name else EmptyString
  end.

(** * Properties *)

(** ** The list-backed [Set] *)

Lemma elem_of_set_add x y l : y ∈ set_add x l ↔ y = x ∨ y ∈ l.
Proof.
  unfold set_add. case_decide as Hx.
  - split; [auto | intros [-> | ?]; done].
  - rewrite elem_of_app, list_elem_of_singleton. tauto.
Qed.

Lemma elem_of_set_delete x y l : y ∈ set_delete x l ↔ y ∈ l ∧ y ≠ x.
Proof. unfold set_delete. rewrite list_elem_of_filter. tauto. Qed.

Lemma set_add_nonempty x l : set_add x l ≠ [].
Proof.
  intros Heq. assert (Hin : x ∈ set_add x l) by (apply elem_of_set_add; auto).
  rewrite Heq in Hin. by apply not_elem_of_nil in Hin.
Qed.

(** ** Broadcast rooms *)

Lemma in_room_join a s r r' :
  in_room (socket_join a s r) r' =
  if decide (r = r') then {[s]} ∪ in_room a r else in_room a r'.
Proof.
  unfold socket_join, in_room at 1. rewrite lookup_insert.
  by case_decide.
Qed.

Lemma in_room_leave_all a s r : in_room (leave_all a s) r = in_room a r ∖ {[s]}.
Proof.
  unfold leave_all, in_room. rewrite lookup_fmap.
  destruct (a !! r); simpl; [done |].
  symmetry. by apply empty_difference_L.
Qed.

(** ** How each handler changes the store *)

Lemma members_lookup st r room :
  rooms st !! r = Some room → members st r = room_users room.
Proof. unfold members. by intros ->. Qed.

Lemma members_absent st r : rooms st !! r = None → members st r = [].
Proof. unfold members. by intros ->. Qed.

Lemma join_room_lookup st s data :
  rooms (join_room st s data).1 !! jd_roomId data =
  Some (with_users (default new_room (rooms st !! jd_roomId data))
          (set_add s (members st (jd_roomId data)))).
Proof.
  unfold join_room, members. simpl. rewrite lookup_insert_eq.
  destruct (rooms st !! jd_roomId data) as [room|] eqn:Hr.
  - by rewrite Hr.
  - by rewrite lookup_insert_eq.
Qed.

Lemma join_room_lookup_ne st s data r :
  r ≠ jd_roomId data → rooms (join_room st s data).1 !! r = rooms st !! r.
Proof.
  intros Hne. unfold join_room. simpl. rewrite lookup_insert_ne by done.
  destruct (rooms st !! jd_roomId data); [done |].
  by rewrite lookup_insert_ne.
Qed.

Lemma members_join st s data r :
  members (join_room st s data).1 r =
  if decide (r = jd_roomId data) then set_add s (members st r)
  else members st r.
Proof.
  case_decide as Hr.
  - subst r. unfold members at 1. by rewrite join_room_lookup.
  - unfold members. by rewrite join_room_lookup_ne.
Qed.

Lemma disconnect_rooms st s :
  rooms (disconnect st s).1 =
  match users st !! s with
  | None => rooms st
  | Some user =>
    match rooms st !! roomId user with
    | None => rooms st
    | Some room =>
      if decide (set_delete s (room_users room) = [])
      then delete (roomId user) (rooms st)
      else <[roomId user := with_users room (set_delete s (room_users room))]>
             (rooms st)
    end
  end.
Proof.
  unfold disconnect. destruct (users st !! s) as [user|]; [| done].
  destruct (rooms st !! roomId user) as [room|]; [| done].
  destruct (set_delete s (room_users room)) eqn:Hd; simpl; done.
Qed.

Lemma members_disconnect st s r :
  members (disconnect st s).1 r =
  match users st !! s with
  | None => members st r
  | Some user =>
    if decide (r = roomId user) then set_delete s (members st r)
    else members st r
  end.
Proof.
  unfold members. rewrite disconnect_rooms.
  destruct (users st !! s) as [user|]; [| done].
  case_decide as Hr.
  - subst r. destruct (rooms st !! roomId user) as [room|] eqn:Hroom.
    + case_decide as He.
      * rewrite lookup_delete_eq. simpl. by rewrite He.
      * by rewrite lookup_insert_eq.
    + by rewrite Hroom.
  - destruct (rooms st !! roomId user) as [room|] eqn:Hroom; [| done].
    case_decide.
    + by rewrite lookup_delete_ne.
    + by rewrite lookup_insert_ne.
Qed.

(** *** Guarded in-place updates *)

Lemma video_event_state st s data :
  (video_event st s data).1 =
  guarded_update st s
    (λ room, with_playback room (apply_video_event (playbackState room) data)).
Proof.
  unfold video_event, guarded_update.
  destruct (users st !! s) as [user|]; [| done].
  by destruct (rooms st !! roomId user).
Qed.

Lemma change_youtube_state st s data :
  (change_youtube_video st s data).1 =
  guarded_update st s (λ room, change_video room (videoId data) youtube).
Proof.
  unfold change_youtube_video, guarded_update.
  destruct (users st !! s) as [user|]; [| done].
  by destruct (rooms st !! roomId user).
Qed.

Lemma change_uploaded_state st s data :
  (change_uploaded_video st s data).1 =
  guarded_update st s (λ room, change_video room (fileUrl data) upload).
Proof.
  unfold change_uploaded_video, guarded_update.
  destruct (users st !! s) as [user|]; [| done].
  by destruct (rooms st !! roomId user).
Qed.

Lemma chat_message_state st s m now : (chat_message st s m now).1 = st.
Proof. unfold chat_message. by destruct (users st !! s). Qed.

(** A room of the updated store is a room of the old store, possibly passed
    through [f]. *)
Lemma guarded_update_lookup st s f r room' :
  rooms (guarded_update st s f) !! r = Some room' →
  ∃ room, rooms st !! r = Some room ∧ (room' = room ∨ room' = f room).
Proof.
  unfold guarded_update.
  destruct (users st !! s) as [user|]; [| by eauto].
  destruct (rooms st !! roomId user) as [room|] eqn:Hroom; [| by eauto].
  simpl. rewrite lookup_insert. case_decide as Hr; [| by eauto].
  intros [= <-]. subst r. eauto.
Qed.

Lemma guarded_update_is_Some st s f r :
  is_Some (rooms st !! r) → is_Some (rooms (guarded_update st s f) !! r).
Proof.
  unfold guarded_update.
  destruct (users st !! s) as [user|]; [| done].
  destruct (rooms st !! roomId user) as [room|] eqn:Hroom; [| done].
  simpl. rewrite lookup_insert. case_decide; eauto.
Qed.

Section room_users_kept.
Variable f : Room → Room.
Hypothesis f_users : ∀ room, room_users (f room) = room_users room.

Lemma guarded_update_members st s r :
  members (guarded_update st s f) r = members st r.
Proof.
  unfold members.
  destruct (rooms (guarded_update st s f) !! r) as [room'|] eqn:Hr'.
  - apply guarded_update_lookup in Hr' as (room & -> & [-> | ->]);
      simpl; by rewrite ?f_users.
  - destruct (rooms st !! r) as [room|] eqn:Hr; [| done].
    destruct (guarded_update_is_Some st s f r) as [room' Hroom']; [eauto |].
    congruence.
Qed.

Lemma guarded_update_same st s : same_membership st (guarded_update st s f).
Proof.
  split_and!; [| | | apply guarded_update_members];
    unfold guarded_update; destruct (users st !! s) as [user|]; try done;
    by destruct (rooms st !! roomId user).
Qed.

Lemma guarded_update_nonempty st s :
  rooms_nonempty st → rooms_nonempty (guarded_update st s f).
Proof.
  intros Hinv r room' (room & Hr & [-> | ->])%guarded_update_lookup;
    rewrite ?f_users; eauto.
Qed.
End room_users_kept.

Lemma video_event_same st s data : same_membership st (video_event st s data).1.
Proof. rewrite video_event_state. by apply guarded_update_same. Qed.

Lemma change_youtube_same st s data :
  same_membership st (change_youtube_video st s data).1.
Proof. rewrite change_youtube_state. by apply guarded_update_same. Qed.

Lemma change_uploaded_same st s data :
  same_membership st (change_uploaded_video st s data).1.
Proof. rewrite change_uploaded_state. by apply guarded_update_same. Qed.

(** ** Invariants of every run *)

Lemma rooms_nonempty_members st r :
  rooms_nonempty st → (is_Some (rooms st !! r) ↔ members st r ≠ []).
Proof.
  intros Hinv. split.
  - intros [room Hroom]. rewrite (members_lookup _ _ _ Hroom). eauto.
  - intros Hm. destruct (rooms st !! r) eqn:Hr; [eauto |].
    by rewrite members_absent in Hm.
Qed.

Lemma members_nonempty_rooms st :
  (∀ r, is_Some (rooms st !! r) → members st r ≠ []) → rooms_nonempty st.
Proof.
  intros H r room Hroom. rewrite <- (members_lookup _ _ _ Hroom).
  apply H. eauto.
Qed.

Lemma join_room_nonempty st s data :
  rooms_nonempty st → rooms_nonempty (join_room st s data).1.
Proof.
  intros Hinv. apply members_nonempty_rooms. intros r [room Hroom].
  rewrite members_join. case_decide as Hr.
  - apply set_add_nonempty.
  - rewrite join_room_lookup_ne in Hroom by done.
    apply rooms_nonempty_members; eauto.
Qed.

Lemma disconnect_nonempty st s :
  rooms_nonempty st → rooms_nonempty (disconnect st s).1.
Proof.
  intros Hinv r room. rewrite disconnect_rooms.
  destruct (users st !! s) as [user|]; [| apply Hinv].
  destruct (rooms st !! roomId user) as [room0|] eqn:Hroom0; [| apply Hinv].
  case_decide as He.
  - rewrite lookup_delete. case_decide; [done | apply Hinv].
  - rewrite lookup_insert. case_decide; [| apply Hinv].
    intros [= <-]. done.
Qed.

Lemma run_rooms_nonempty tr st : run tr st → rooms_nonempty st.
Proof.
  induction 1 as [| tr st ev Hrun IH Hen].
  - intros r room. unfold init. simpl. by rewrite lookup_empty.
  - destruct ev; simpl.
    + done.
    + by apply join_room_nonempty.
    + rewrite video_event_state. by apply guarded_update_nonempty.
    + rewrite change_youtube_state. by apply guarded_update_nonempty.
    + rewrite change_uploaded_state. by apply guarded_update_nonempty.
    + by rewrite chat_message_state.
    + done.
    + by apply disconnect_nonempty.
Qed.

Lemma same_membership_refl st : same_membership st st.
Proof. by split_and!. Qed.

Lemma registry_ok_same st st' :
  same_membership st st' → registry_ok st → registry_ok st'.
Proof.
  intros (Hs & Ha & Hu & Hm) Hinv s user. rewrite Hs, Ha, Hu, Hm. apply Hinv.
Qed.

Lemma live_members_same st st' :
  same_membership st st' → live_members_joined st → live_members_joined st'.
Proof.
  intros (Hs & Ha & Hu & Hm) Hinv r t. rewrite Hs, Ha, Hm. apply Hinv.
Qed.

Lemma members_known_same tr st st' ev :
  same_membership st st' →
  connected_ids (ev :: tr) = connected_ids tr →
  members_known tr st → members_known (ev :: tr) st'.
Proof.
  intros (Hs & Ha & Hu & Hm) Hids Hinv r t. rewrite Hm, Hids. apply Hinv.
Qed.

Lemma users_disconnect st s : users (disconnect st s).1 = delete s (users st).
Proof.
  unfold disconnect. destruct (users st !! s) as [user|] eqn:Hu.
  - by destruct (rooms st !! roomId user); [case_decide |].
  - simpl. symmetry. by apply delete_id.
Qed.

Lemma sockets_disconnect st s : sockets (disconnect st s).1 = sockets st ∖ {[s]}.
Proof.
  unfold disconnect. destruct (users st !! s) as [user|]; [| done].
  by destruct (rooms st !! roomId user); [case_decide |].
Qed.

Lemma adapter_disconnect st s :
  adapter (disconnect st s).1 = leave_all (adapter st) s.
Proof.
  unfold disconnect. destruct (users st !! s) as [user|]; [| done].
  by destruct (rooms st !! roomId user); [case_decide |].
Qed.

Lemma members_disconnect_sub st s r t :
  t ∈ members (disconnect st s).1 r → t ∈ members st r.
Proof.
  rewrite members_disconnect. destruct (users st !! s); [| done].
  case_decide; [| done]. by intros [? _]%elem_of_set_delete.
Qed.

Lemma members_disconnect_keep st s r t :
  t ≠ s → t ∈ members st r → t ∈ members (disconnect st s).1 r.
Proof.
  intros Hne Hin. rewrite members_disconnect. destruct (users st !! s); [| done].
  case_decide; [| done]. by apply elem_of_set_delete.
Qed.

Lemma members_join_keep st s data r t :
  t ∈ members st r → t ∈ members (join_room st s data).1 r.
Proof.
  intros Hin. rewrite members_join. case_decide; [| done].
  apply elem_of_set_add. auto.
Qed.

(** Live sockets are ids that opened a connection. *)
Lemma run_sockets_known tr st t : run tr st → t ∈ sockets st → t ∈ connected_ids tr.
Proof.
  induction 1 as [| tr st ev Hrun IH Hen]; [by intros ?%not_elem_of_empty |].
  destruct ev; cbn [handle connected_ids]; try done.
  - cbn. intros [->%elem_of_singleton | Hin]%elem_of_union.
    + apply list_elem_of_here.
    + apply list_elem_of_further. auto.
  - by destruct (video_event_same st s data) as (-> & _).
  - by destruct (change_youtube_same st s data) as (-> & _).
  - by destruct (change_uploaded_same st s data) as (-> & _).
  - by rewrite chat_message_state.
  - rewrite sockets_disconnect. intros [Hin _]%elem_of_difference. auto.
Qed.

Lemma run_members_known tr st : run tr st → members_known tr st.
Proof.
  induction 1 as [| tr st ev Hrun IH Hen].
  - intros r t. unfold members, init. simpl. rewrite lookup_empty. simpl.
    by intros ?%not_elem_of_nil.
  - destruct ev; cbn [handle]; cbn [enabled] in Hen.
    + intros r t Hin. cbn [connected_ids]. apply list_elem_of_further.
      by eapply IH.
    + intros r t. cbn [connected_ids]. rewrite members_join.
      case_decide; [| apply IH].
      intros [-> | Hin]%elem_of_set_add; [| by eapply IH].
      by eapply run_sockets_known.
    + eapply members_known_same; [apply video_event_same | done | done].
    + eapply members_known_same; [apply change_youtube_same | done | done].
    + eapply members_known_same; [apply change_uploaded_same | done | done].
    + rewrite chat_message_state. apply IH.
    + apply IH.
    + intros r t Hin. cbn [connected_ids]. eapply IH.
      by eapply members_disconnect_sub.
Qed.

Lemma run_registry_ok tr st : run tr st → registry_ok st.
Proof.
  induction 1 as [| tr st ev Hrun IH Hen].
  - intros s user. unfold init. simpl. by rewrite lookup_empty.
  - destruct ev; cbn [handle]; cbn [enabled] in Hen.
    + intros t user Hu. destruct (IH t user Hu) as (Hs & Ha & Hm).
      cbn. split_and!; [set_solver | | done].
      rewrite in_room_join. case_decide; [subst; set_solver | done].
    + intros t user. cbn [join_room fst users sockets adapter].
      rewrite lookup_insert. case_decide as Hst.
      * intros [= <-]. subst t. cbn [roomId]. split_and!; [done | |].
        -- rewrite in_room_join. rewrite decide_True by done. set_solver.
        -- change (s ∈ members (join_room st s data).1 (jd_roomId data)).
           rewrite members_join, decide_True by done.
           apply elem_of_set_add. auto.
      * intros Hu. destruct (IH t user Hu) as (Hs & Ha & Hm).
        split_and!; [done | |].
        -- rewrite in_room_join. case_decide as Hr; [| done].
           rewrite <- Hr in Ha. set_solver.
        -- by apply (members_join_keep st s data).
    + eapply registry_ok_same; [apply video_event_same | done].
    + eapply registry_ok_same; [apply change_youtube_same | done].
    + eapply registry_ok_same; [apply change_uploaded_same | done].
    + by rewrite chat_message_state.
    + done.
    + intros t user. rewrite users_disconnect, sockets_disconnect,
        adapter_disconnect, in_room_leave_all, lookup_delete.
      case_decide as Hst; [done |]. intros Hu.
      destruct (IH t user Hu) as (Hs & Ha & Hm).
      split_and!; [set_solver | set_solver |].
      by apply members_disconnect_keep.
Qed.

Lemma run_live_members_joined tr st : run tr st → live_members_joined st.
Proof.
  induction 1 as [| tr st ev Hrun IH Hen].
  - intros r t. by intros _ ?%not_elem_of_empty.
  - destruct ev; cbn [handle]; cbn [enabled] in Hen.
    + intros r t Hm. cbn. intros [->%elem_of_singleton | Hin]%elem_of_union.
      * destruct Hen. by eapply run_members_known.
      * rewrite in_room_join. specialize (IH r t Hm Hin).
        case_decide; [subst; set_solver | done].
    + intros r t. rewrite members_join. cbn [join_room fst sockets adapter].
      rewrite in_room_join. case_decide as Hr.
      * subst r. rewrite decide_True by done.
        intros [-> | Hm]%elem_of_set_add Hs; [set_solver |].
        specialize (IH _ _ Hm Hs). set_solver.
      * rewrite decide_False by done. apply IH.
    + eapply live_members_same; [apply video_event_same | done].
    + eapply live_members_same; [apply change_youtube_same | done].
    + eapply live_members_same; [apply change_uploaded_same | done].
    + by rewrite chat_message_state.
    + done.
    + intros r t Hm. rewrite sockets_disconnect, adapter_disconnect,
        in_room_leave_all. intros [Hs Hne]%elem_of_difference.
      apply members_disconnect_sub in Hm. specialize (IH _ _ Hm Hs).
      set_solver.
Qed.

(** ** The playback state machine *)

Lemma is_str_eq v lit : is_str v lit = true ↔ v = VString lit.
Proof.
  destruct v; simpl; try (split; [discriminate | congruence]).
  rewrite String.eqb_eq. split; congruence.
Qed.

Lemma js_or_truthy a b : truthy b = true → truthy (js_or a b) = true.
Proof. unfold js_or. by destruct (truthy a) eqn:Ha. Qed.

Lemma js_or_falsy a b : truthy a = false → js_or a b = b.
Proof. unfold js_or. by intros ->. Qed.

Lemma truthy_not_zero v : truthy v = true → is_zero v = false.
Proof.
  destruct v; simpl; try done.
  destruct (PrimFloat.eqb x 0); simpl; [discriminate | done].
Qed.

Lemma is_zero_falsy v : is_zero v = true → truthy v = false.
Proof. destruct v; simpl; try done. by intros ->. Qed.

Lemma apply_rate_change ps data :
  is_str (ve_type data) "rate-change" = true →
  apply_video_event ps data =
  {| isPlaying := isPlaying ps; currentTime := currentTime ps;
     playbackRate := js_or (ve_playbackRate data) (VNumber 1) |}.
Proof.
  intros H%is_str_eq. unfold apply_video_event. by rewrite H.
Qed.

Lemma apply_unrecognised ps data :
  recognised (ve_type data) = false → apply_video_event ps data = ps.
Proof.
  unfold recognised, apply_video_event.
  intros [[[-> ->]%orb_false_elim ->]%orb_false_elim ->]%orb_false_elim.
  done.
Qed.

Lemma apply_rate_truthy ps data :
  truthy (playbackRate ps) = true →
  truthy (playbackRate (apply_video_event ps data)) = true.
Proof.
  intros Hps. unfold apply_video_event.
  repeat (case_match; simpl; try done).
  by apply js_or_truthy.
Qed.

Lemma run_rate_truthy tr st : run tr st → rate_truthy st.
Proof.
  induction 1 as [| tr st ev Hrun IH Hen].
  - intros r room. unfold init. simpl. by rewrite lookup_empty.
  - destruct ev; cbn [handle].
    + done.
    + intros r room. destruct (decide (r = jd_roomId data)) as [-> | Hne].
      * rewrite join_room_lookup. intros [= <-]. simpl.
        destruct (rooms st !! jd_roomId data) as [room0|] eqn:Hr; simpl.
        -- by eapply IH.
        -- done.
      * rewrite join_room_lookup_ne by done. apply IH.
    + rewrite video_event_state.
      intros r room' (room & Hr & [-> | ->])%guarded_update_lookup;
        [by eapply IH |]. simpl. apply apply_rate_truthy. by eapply IH.
    + rewrite change_youtube_state.
      intros r room' (room & Hr & [-> | ->])%guarded_update_lookup;
        [by eapply IH | done].
    + rewrite change_uploaded_state.
      intros r room' (room & Hr & [-> | ->])%guarded_update_lookup;
        [by eapply IH | done].
    + by rewrite chat_message_state.
    + done.
    + intros r room. rewrite disconnect_rooms.
      destruct (users st !! s) as [user|]; [| apply IH].
      destruct (rooms st !! roomId user) as [room0|] eqn:Hr; [| apply IH].
      case_decide.
      * rewrite lookup_delete. case_decide; [done | apply IH].
      * rewrite lookup_insert. case_decide; [| apply IH].
        intros [= <-]. simpl. subst. by eapply IH.
Qed.

(** ** Sample runs *)

Lemma enabledb_enabled tr st ev : enabledb tr st ev = true → enabled tr st ev.
Proof. destruct ev; simpl; by intros ?%bool_decide_eq_true. Qed.

Lemma run_from_run tr st evs st' :
  run tr st → run_from tr st evs = Some st' → run (rev evs ++ tr) st'.
Proof.
  revert tr st. induction evs as [| ev evs IH]; intros tr st Hrun; simpl.
  - by intros [= <-].
  - destruct (enabledb tr st ev) eqn:Hen; [| done]. intros Hevs.
    rewrite <- app_assoc. simpl. eapply IH; [| done].
    constructor; [done | by apply enabledb_enabled].
Qed.

Lemma run_from_init evs st :
  run_from [] init evs = Some st → run (rev evs) st.
Proof.
  intros H. rewrite <- (app_nil_r (rev evs)).
  eapply run_from_run; [constructor | done].
Qed.

Lemma run_alice_joins : run (rev alice_joins) (after alice_joins).
Proof. apply run_from_init. vm_compute. reflexivity. Qed.

Lemma run_pair_joins : run (rev pair_joins) (after pair_joins).
Proof. apply run_from_init. vm_compute. reflexivity. Qed.

Lemma run_alice_seeks : run (rev alice_seeks) (after alice_seeks).
Proof. apply run_from_init. vm_compute. reflexivity. Qed.

(** ** Rooms and their members *)

Lemma run_history_ok tr st : run tr st → history_ok tr st.
Proof.
  induction 1 as [| tr st ev Hrun [IHm IHu] Hen]; [by split |].
  destruct ev; unfold history_ok; cbn [handle last_room joined_members].
  - by split.
  - split.
    + intros r. rewrite members_join, IHm. by case_decide.
    + intros t. cbn. rewrite lookup_insert, <- IHu.
      destruct (decide (t = s)) as [-> | Hne].
      * by rewrite decide_True.
      * by rewrite decide_False.
  - destruct (video_event_same st s data) as (_ & _ & Hu & Hm).
    split; intros; by rewrite ?Hm, ?Hu.
  - destruct (change_youtube_same st s data) as (_ & _ & Hu & Hm).
    split; intros; by rewrite ?Hm, ?Hu.
  - destruct (change_uploaded_same st s data) as (_ & _ & Hu & Hm).
    split; intros; by rewrite ?Hm, ?Hu.
  - by rewrite chat_message_state.
  - by split.
  - split.
    + intros r. rewrite members_disconnect, <- IHu, IHm.
      destruct (users st !! s) as [user|]; simpl; [| done].
      by case_decide.
    + intros t. rewrite users_disconnect, lookup_delete, <- IHu.
      destruct (decide (t = s)) as [-> | Hne].
      * by rewrite decide_True.
      * by rewrite decide_False.
Qed.

(** C1. After every sequence of events, a room is in the store exactly when
    its member set is non-empty, where the member set is the one the joins
    and leaves so far determine, and the room in the store holds exactly that
    set. Step by step: a join to a room identifier not in the store creates
    the room with the joiner as only member, a join to a room in the store
    keeps it and adds the joiner, a disconnect that removes the last member
    deletes the room in that same step, a disconnect that leaves members
    behind keeps the room with the others, and a disconnect touches no other
    room. *)
Theorem room_in_store_iff_members tr st :
  run tr st →
  (∀ r, is_Some (rooms st !! r) ↔ joined_members tr r ≠ []) ∧
  (∀ r room, rooms st !! r = Some room →
     room_users room = joined_members tr r) ∧
  (∀ r, is_Some (rooms st !! r) ↔ members st r ≠ []) ∧
  (∀ s data, rooms st !! jd_roomId data = None →
     rooms (join_room st s data).1 !! jd_roomId data =
     Some (with_users new_room [s])) ∧
  (∀ s data room, rooms st !! jd_roomId data = Some room →
     rooms (join_room st s data).1 !! jd_roomId data =
     Some (with_users room (set_add s (room_users room)))) ∧
  (∀ s user, users st !! s = Some user →
     set_delete s (members st (roomId user)) = [] →
     rooms (disconnect st s).1 !! roomId user = None) ∧
  (∀ s user room, users st !! s = Some user →
     rooms st !! roomId user = Some room →
     set_delete s (room_users room) ≠ [] →
     rooms (disconnect st s).1 !! roomId user =
     Some (with_users room (set_delete s (room_users room)))) ∧
  (∀ s user r, users st !! s = Some user → r ≠ roomId user →
     rooms (disconnect st s).1 !! r = rooms st !! r).
Proof.
  intros Hrun. destruct (run_history_ok _ _ Hrun) as [Hm _].
  pose proof (run_rooms_nonempty _ _ Hrun) as Hne.
  split_and!.
  - intros r. rewrite <- Hm. by apply rooms_nonempty_members.
  - intros r room Hr. by rewrite <- Hm, (members_lookup _ _ _ Hr).
  - intros r. by apply rooms_nonempty_members.
  - intros s data Hr. rewrite join_room_lookup, Hr.
    by rewrite (members_absent _ _ Hr).
  - intros s data room Hr. rewrite join_room_lookup, Hr.
    by rewrite (members_lookup _ _ _ Hr).
  - intros s user Hu Hd. rewrite disconnect_rooms, Hu.
    destruct (rooms st !! roomId user) as [room|] eqn:Hr; [| done].
    rewrite (members_lookup _ _ _ Hr) in Hd.
    rewrite decide_True by done. apply lookup_delete_eq.
  - intros s user room Hu Hr Hd. rewrite disconnect_rooms, Hu, Hr.
    rewrite decide_False by done. apply lookup_insert_eq.
  - intros s user r Hu Hr. rewrite disconnect_rooms, Hu.
    destruct (rooms st !! roomId user) as [room|]; [| done].
    case_decide; [by rewrite lookup_delete_ne | by rewrite lookup_insert_ne].
Qed.

Lemma room_in_store_iff_members_witness :
  joined_members (rev alice_leaves_bob) "r1" = ["b"] ∧
  is_Some (rooms (after alice_leaves_bob) !! "r1") ∧
  rooms (join_room (after alice_joins) "a" (join_as "r2" "alice")).1 !! "r2" =
    Some (with_users new_room ["a"]) ∧
  rooms (disconnect (after alice_joins) "a").1 !! "r1" = None ∧
  rooms (disconnect (after pair_joins) "a").1 !! "r1" =
    Some (with_users new_room ["b"]).
Proof.
  assert (Hleft : run (rev alice_leaves_bob) (after alice_leaves_bob)).
  { apply run_from_init. vm_compute. reflexivity. }
  pose proof (room_in_store_iff_members _ _ Hleft) as (Hiff & _).
  pose proof (room_in_store_iff_members _ _ run_alice_joins)
    as (_ & _ & _ & Hnew & _ & Hlast & _).
  pose proof (room_in_store_iff_members _ _ run_pair_joins)
    as (_ & _ & _ & _ & _ & _ & Hkeep & _).
  split_and!.
  - vm_compute. reflexivity.
  - apply Hiff. vm_compute. discriminate.
  - apply (Hnew "a" (join_as "r2" "alice")). vm_compute. reflexivity.
  - apply (Hlast "a" alice_in_r1).
    + vm_compute. reflexivity.
    + vm_compute. reflexivity.
  - apply (Hkeep "a" alice_in_r1 (with_users new_room ["a"; "b"])).
    + vm_compute. reflexivity.
    + vm_compute. reflexivity.
    + vm_compute. discriminate.
Defined.

(** C10. A participant in room A's member set that joins another room B is
    re-registered under B and added to B's members while staying in A's; its
    disconnect then removes it from B only, so A keeps the stale identity. *)
Theorem stale_member_after_switch st s data A roomA :
  rooms st !! A = Some roomA → s ∈ room_users roomA → A ≠ jd_roomId data →
  let st1 := (join_room st s data).1 in
  let st2 := (disconnect st1 s).1 in
  (users st1 !! s =
     Some {| roomId := jd_roomId data; username := jd_username data |} ∧
   s ∈ members st1 (jd_roomId data) ∧
   s ∈ members st1 A ∧
   (s ∉ members st2 (jd_roomId data)) ∧
   s ∈ members st2 A ∧
   is_Some (rooms st2 !! A) ∧
   users st2 !! s = None).
Proof.
  intros HA Hs Hne st1 st2.
  assert (Hu1 : users st1 !! s =
    Some {| roomId := jd_roomId data; username := jd_username data |}).
  { unfold st1, join_room. simpl. apply lookup_insert_eq. }
  assert (HA1 : members st1 A = room_users roomA).
  { unfold st1. rewrite members_join, decide_False by done.
    by apply members_lookup. }
  assert (HA2 : members st2 A = room_users roomA).
  { unfold st2. rewrite members_disconnect, Hu1. simpl.
    by rewrite decide_False. }
  split_and!.
  - done.
  - unfold st1. rewrite members_join, decide_True by done.
    apply elem_of_set_add. auto.
  - by rewrite HA1.
  - unfold st2. rewrite members_disconnect, Hu1. simpl.
    rewrite decide_True by done. rewrite elem_of_set_delete. tauto.
  - by rewrite HA2.
  - destruct (rooms st2 !! A) eqn:Hr; [eauto |].
    rewrite (members_absent _ _ Hr) in HA2. rewrite <- HA2 in Hs.
    by apply not_elem_of_nil in Hs.
  - unfold st2. rewrite users_disconnect. apply lookup_delete_eq.
Qed.

Lemma stale_member_after_switch_witness :
  let st1 := (join_room (after alice_joins) "a" (join_as "r2" "alice")).1 in
  let st2 := (disconnect st1 "a").1 in
  ("a" ∈ members st1 "r2" ∧ "a" ∈ members st1 "r1" ∧
   ("a" ∉ members st2 "r2") ∧ "a" ∈ members st2 "r1" ∧
   users st2 !! "a" = None).
Proof.
  intros st1 st2.
  destruct (stale_member_after_switch (after alice_joins) "a"
              (join_as "r2" "alice") "r1"
              (with_users new_room ["a"]))
    as (_ & H2 & H3 & H4 & H5 & _ & H7).
  - vm_compute. reflexivity.
  - simpl. apply list_elem_of_here.
  - simpl. discriminate.
  - split_and!; assumption.
Defined.

(** ** Playback events *)

Lemma video_event_lookup st s data user room :
  users st !! s = Some user → rooms st !! roomId user = Some room →
  rooms (video_event st s data).1 !! roomId user =
  Some (with_playback room (apply_video_event (playbackState room) data)).
Proof.
  intros Hu Hr. unfold video_event. rewrite Hu, Hr. simpl.
  apply lookup_insert_eq.
Qed.

Lemma video_event_out st s data user :
  users st !! s = Some user → is_Some (rooms st !! roomId user) →
  (video_event st s data).2 =
  [emit_others (adapter st) s (roomId user) (VideoEventOut data)].
Proof. intros Hu [room Hr]. unfold video_event. by rewrite Hu, Hr. Qed.

Lemma apply_time_kind ps data :
  time_kind (ve_type data) = true →
  currentTime (apply_video_event ps data) =
  js_or (ve_currentTime data) (VNumber 0).
Proof.
  unfold time_kind, apply_video_event. intros H.
  destruct (is_str (ve_type data) "play"); [done |].
  destruct (is_str (ve_type data) "pause"); [done |].
  destruct (is_str (ve_type data) "seek"); [done | discriminate].
Qed.

(** C5. A video change, from YouTube or from an upload, by a registered
    participant whose room exists sets the room's video reference and kind
    together and resets the playback state to paused, time 0, rate 1,
    whatever the room held before. *)
Theorem video_change_resets st s user room :
  users st !! s = Some user → rooms st !! roomId user = Some room →
  (∀ data,
     rooms (change_youtube_video st s data).1 !! roomId user =
     Some {| room_users := room_users room; currentVideo := videoId data;
             room_videoType := Some youtube;
             playbackState := {| isPlaying := false; currentTime := VNumber 0;
                                 playbackRate := VNumber 1 |} |}) ∧
  (∀ data,
     rooms (change_uploaded_video st s data).1 !! roomId user =
     Some {| room_users := room_users room; currentVideo := fileUrl data;
             room_videoType := Some upload;
             playbackState := {| isPlaying := false; currentTime := VNumber 0;
                                 playbackRate := VNumber 1 |} |}).
Proof.
  intros Hu Hr. split; intros data.
  - unfold change_youtube_video. rewrite Hu, Hr. simpl. apply lookup_insert_eq.
  - unfold change_uploaded_video. rewrite Hu, Hr. simpl. apply lookup_insert_eq.
Qed.

Lemma video_change_resets_witness :
  playbackState <$>
    rooms (change_youtube_video (after alice_seeks) "a"
             {| videoId := VString "abc123"; title := VString "Demo" |}).1
      !! "r1" = Some default_playback ∧
  playbackState <$>
    rooms (change_uploaded_video (after alice_seeks) "a"
             {| fileUrl := VString "/uploads/x.mp4"; fileName := VNull |}).1
      !! "r1" = Some default_playback.
Proof.
  destruct (video_change_resets (after alice_seeks) "a"
              alice_in_r1
              room_at_42)
    as [Hy Hu].
  - vm_compute. reflexivity.
  - vm_compute. reflexivity.
  - split.
    + simpl in Hy. rewrite Hy. reflexivity.
    + simpl in Hu. rewrite Hu. reflexivity.
Defined.

(** C9. A [rate-change] whose [playbackRate] is absent, [null] or zero stores
    the rate 1, and in no run of the server does a room's stored playback
    rate equal 0. *)
Theorem rate_never_zero :
  (∀ st s data user room,
     users st !! s = Some user → rooms st !! roomId user = Some room →
     is_str (ve_type data) "rate-change" = true →
     ve_playbackRate data = VUndefined ∨ ve_playbackRate data = VNull ∨
       is_zero (ve_playbackRate data) = true →
     playbackRate ∘ playbackState <$>
       rooms (video_event st s data).1 !! roomId user = Some (VNumber 1)) ∧
  (∀ tr st r room,
     run tr st → rooms st !! r = Some room →
     is_zero (playbackRate (playbackState room)) = false).
Proof.
  split.
  - intros st s data user room Hu Hr Hk Hrate.
    rewrite (video_event_lookup _ _ _ _ _ Hu Hr). simpl.
    rewrite apply_rate_change by done. simpl. f_equal.
    apply js_or_falsy.
    destruct Hrate as [-> | [-> | Hz]]; [done | done |].
    by apply is_zero_falsy.
  - intros tr st r room Hrun Hr. apply truthy_not_zero.
    by eapply run_rate_truthy.
Qed.

Lemma rate_never_zero_witness :
  playbackRate ∘ playbackState <$>
    rooms (video_event (after alice_seeks) "a"
             (video_ev "rate-change" VUndefined (VNumber 0))).1 !! "r1" =
    Some (VNumber 1) ∧
  is_zero (VNumber 1.5) = false.
Proof.
  destruct rate_never_zero as [H1 H2]. split.
  - apply (H1 (after alice_seeks) "a" _
             alice_in_r1
             room_at_42).
    + vm_compute. reflexivity.
    + vm_compute. reflexivity.
    + vm_compute. reflexivity.
    + right. right. vm_compute. reflexivity.
  - apply (H2 (rev alice_seeks) (after alice_seeks) "r1"
             room_at_42).
    + apply run_from_init. vm_compute. reflexivity.
    + vm_compute. reflexivity.
Defined.

(** After Alice has sought to 42 s at rate 1.5, a [pause] without
    [currentTime] puts the time back to 0, and a [rate-change] without
    [playbackRate] puts the rate back to 1. *)
Lemma absent_field_is_reset :
  ¬ absent_field_kept (after alice_seeks) "a"
      (video_ev "pause" VUndefined VUndefined) ∧
  ¬ absent_field_kept (after alice_seeks) "a"
      (video_ev "rate-change" VUndefined VUndefined).
Proof.
  split; intros H.
  - edestruct H as [Ht _]; [vm_compute; reflexivity .. |].
    specialize (Ht eq_refl eq_refl). vm_compute in Ht.
    apply (f_equal (λ v, is_num v 0)) in Ht. vm_compute in Ht.
    discriminate.
  - edestruct H as [_ Hr]; [vm_compute; reflexivity .. |].
    specialize (Hr eq_refl eq_refl). vm_compute in Hr.
    apply (f_equal (λ v, is_num v 1)) in Hr. vm_compute in Hr.
    discriminate.
Qed.

(** C4, as the code has it. A [play], [pause] or [seek] without [currentTime]
    stores the time 0, and a [rate-change] without [playbackRate] stores the
    rate 1. *)
Theorem absent_field_defaults st s data user room :
  users st !! s = Some user → rooms st !! roomId user = Some room →
  ∃ room',
    rooms (video_event st s data).1 !! roomId user = Some room' ∧
    (time_kind (ve_type data) = true → ve_currentTime data = VUndefined →
     currentTime (playbackState room') = VNumber 0) ∧
    (is_str (ve_type data) "rate-change" = true →
     ve_playbackRate data = VUndefined →
     playbackRate (playbackState room') = VNumber 1).
Proof.
  intros Hu Hr. eexists. split; [by apply video_event_lookup |].
  simpl. split.
  - intros Hk Ht. rewrite apply_time_kind by done. by rewrite Ht.
  - intros Hk Hp. rewrite apply_rate_change by done. simpl. by rewrite Hp.
Qed.

Lemma absent_field_defaults_witness :
  ∃ room',
    rooms (video_event (after alice_seeks) "a"
             (video_ev "seek" VUndefined VUndefined)).1 !! "r1" = Some room' ∧
    currentTime (playbackState room') = VNumber 0.
Proof.
  destruct (absent_field_defaults (after alice_seeks) "a"
              (video_ev "seek" VUndefined VUndefined)
              alice_in_r1
              room_at_42)
    as (room' & Hroom' & Ht & _).
  - vm_compute. reflexivity.
  - vm_compute. reflexivity.
  - exists room'. split; [exact Hroom' |].
    apply Ht; vm_compute; reflexivity.
Defined.

(** With Alice and Bob in room r1, Alice's event of kind "stop" reaches
    Bob. *)
Lemma unknown_event_reaches_others :
  ¬ unknown_event_dropped (after pair_joins) "a"
      (video_ev "stop" VUndefined VUndefined).
Proof.
  intros H. destruct H as [_ Hno]; [reflexivity |].
  apply (Hno "b").
  exists (VideoEventOut (video_ev "stop" VUndefined VUndefined)).
  eexists. split; [apply list_elem_of_here |].
  split; [reflexivity |]. vm_compute. reflexivity.
Qed.

Lemma with_playback_id room : with_playback room (playbackState room) = room.
Proof. by destruct room. Qed.

Lemma set_rooms_id st : set_rooms st (rooms st) = st.
Proof. by destruct st. Qed.

(** C3, as the code has it. A video-event of unknown kind leaves the whole
    server state as it was, but is still relayed, unchanged, to every other
    socket in the sender's room. *)
Theorem unknown_event_relayed st s data :
  recognised (ve_type data) = false →
  (video_event st s data).1 = st ∧
  ∀ user, users st !! s = Some user → is_Some (rooms st !! roomId user) →
    (video_event st s data).2 =
      [emit_others (adapter st) s (roomId user) (VideoEventOut data)] ∧
    ∀ t, t ∈ in_room (adapter st) (roomId user) → t ≠ s →
      delivered (video_event st s data).2 t (VideoEventOut data).
Proof.
  intros Hk. split.
  - unfold video_event. destruct (users st !! s) as [user|]; [| done].
    destruct (rooms st !! roomId user) as [room|] eqn:Hr; [| done].
    simpl. rewrite apply_unrecognised by done.
    rewrite with_playback_id, insert_id by done. apply set_rooms_id.
  - intros user Hu Hr. rewrite (video_event_out _ _ _ _ Hu Hr).
    split; [done |]. intros t Ht Hne. eexists. split; [apply list_elem_of_here |].
    split; [done |]. simpl. set_solver.
Qed.

Lemma unknown_event_relayed_witness :
  (video_event (after pair_joins) "a"
     (video_ev "stop" VUndefined VUndefined)).1 = after pair_joins ∧
  delivered (video_event (after pair_joins) "a"
               (video_ev "stop" VUndefined VUndefined)).2 "b"
    (VideoEventOut (video_ev "stop" VUndefined VUndefined)).
Proof.
  destruct (unknown_event_relayed (after pair_joins) "a"
              (video_ev "stop" VUndefined VUndefined)) as [Hst Hout].
  - vm_compute. reflexivity.
  - split; [exact Hst |].
    destruct (Hout alice_in_r1)
      as [_ Hd].
    + vm_compute. reflexivity.
    + vm_compute. eauto.
    + apply Hd.
      * vm_compute. reflexivity.
      * discriminate.
Defined.

(** ** Joining *)

Lemma join_room_out st s data :
  ∃ video vt ps,
    (join_room st s data).2 =
    [ emit_others (adapter (join_room st s data).1) s (jd_roomId data)
        (UserJoined s (jd_username data));
      emit_self s (RoomState video vt ps (snapshot_users st s data)) ].
Proof.
  do 3 eexists. unfold snapshot_users. unfold members.
  rewrite join_room_lookup. unfold join_room at 1. cbn [snd]. simpl.
  repeat f_equal. unfold members.
  destruct (rooms st !! jd_roomId data) as [room|] eqn:Hr.
  - by rewrite Hr.
  - by rewrite lookup_insert_eq.
Qed.

Lemma join_room_snapshot st s data :
  ∃ video vt ps,
    delivered (join_room st s data).2 s
      (RoomState video vt ps (snapshot_users st s data)).
Proof.
  destruct (join_room_out st s data) as (video & vt & ps & Hout).
  exists video, vt, ps. rewrite Hout. eexists. split.
  - apply list_elem_of_further, list_elem_of_here.
  - split; [done |]. simpl. by apply elem_of_singleton.
Qed.


(** She also receives the snapshot of r2. *)
Example rejoin_gets_snapshot :
  delivered (join_room (after alice_joins) "a" (join_as "r2" "alice")).2 "a"
    (RoomState VNull None default_playback [("a", VString "alice")]).
Proof.
  eexists. split; [apply list_elem_of_further, list_elem_of_here |].
  split; [vm_compute; reflexivity |]. vm_compute. reflexivity.
Qed.




(** C8. The member list of the room-state snapshot is the room's member set
    after the join: it contains the joiner, omits nobody, and shows the name
    'Unknown' for every member the registry has no record of. *)
Theorem snapshot_lists_joiner_and_unknown st s data :
  let st' := (join_room st s data).1 in
  let us := snapshot_users st s data in
  ((∃ video vt ps, delivered (join_room st s data).2 s (RoomState video vt ps us)) ∧
   s ∈ us.*1 ∧
   us.*1 = members st' (jd_roomId data) ∧
   ∀ t, t ∈ members st' (jd_roomId data) → users st' !! t = None →
     (t, VString "Unknown") ∈ us).
Proof.
  intros st' us. split_and!.
  - apply join_room_snapshot.
  - unfold us, snapshot_users. rewrite <- list_fmap_compose.
    rewrite list_elem_of_fmap. exists s. split; [done |].
    rewrite members_join, decide_True by done. apply elem_of_set_add. auto.
  - unfold us, snapshot_users. fold st'. rewrite <- list_fmap_compose.
    apply list_fmap_id.
  - intros t Ht Hu. unfold us, snapshot_users. fold st'.
    apply list_elem_of_fmap. exists t. split; [| done].
    unfold display_name. by rewrite Hu.
Qed.

Lemma snapshot_lists_joiner_and_unknown_witness :
  snapshot_users (after bob_after_alice) "b" (join_as "r1" "bob") =
    [("a", VString "Unknown"); ("b", VString "bob")] ∧
  ("a", VString "Unknown") ∈
    snapshot_users (after bob_after_alice) "b" (join_as "r1" "bob").
Proof.
  split; [vm_compute; reflexivity |].
  destruct (snapshot_lists_joiner_and_unknown (after bob_after_alice) "b"
              (join_as "r1" "bob")) as (_ & _ & _ & H).
  apply H.
  - vm_compute. apply list_elem_of_here.
  - vm_compute. reflexivity.
Defined.

(** ** Who is in a broadcast room *)

Lemma adapter_ok_same st st' :
  same_membership st st' → adapter_ok st → adapter_ok st'.
Proof.
  intros (Hs & Ha & Hu & Hm) Hinv r t. rewrite Hs, Ha, Hm. apply Hinv.
Qed.

Lemma own_room_same st st' :
  same_membership st st' → own_room st → own_room st'.
Proof.
  intros (Hs & Ha & Hu & Hm) Hinv s. rewrite Hs, Ha. apply Hinv.
Qed.

Lemma run_adapter_ok tr st : run tr st → adapter_ok st.
Proof.
  induction 1 as [| tr st ev Hrun IH Hen].
  - intros r t. unfold in_room, init. simpl. rewrite lookup_empty. simpl.
    by intros ?%not_elem_of_empty.
  - destruct ev; cbn [handle]; cbn [enabled] in Hen.
    + intros r t. cbn [connect fst sockets adapter]. rewrite in_room_join.
      change (members (connect st s).1 r) with (members st r).
      case_decide as Hr.
      * subst r. intros [->%elem_of_singleton | Hin]%elem_of_union.
        -- split; [apply elem_of_union_l; by apply elem_of_singleton | auto].
        -- destruct (IH _ _ Hin) as [Hs Hm].
           split; [by apply elem_of_union_r | done].
      * intros Hin. destruct (IH _ _ Hin) as [Hs Hm].
        split; [by apply elem_of_union_r | done].
    + intros r t. cbn [join_room fst sockets adapter]. rewrite in_room_join.
      change (members _ r) with (members (join_room st s data).1 r).
      case_decide as Hr.
      * subst r. intros [->%elem_of_singleton | Hin]%elem_of_union.
        -- split; [done |]. right. rewrite members_join, decide_True by done.
           apply elem_of_set_add. auto.
        -- destruct (IH _ _ Hin) as [? [? | ?]]; [by auto |].
           split; [done |]. right. by apply members_join_keep.
      * intros Hin. destruct (IH _ _ Hin) as [? [? | ?]]; [by auto |].
        split; [done |]. right. by apply members_join_keep.
    + eapply adapter_ok_same; [apply video_event_same | done].
    + eapply adapter_ok_same; [apply change_youtube_same | done].
    + eapply adapter_ok_same; [apply change_uploaded_same | done].
    + by rewrite chat_message_state.
    + done.
    + intros r t. rewrite sockets_disconnect, adapter_disconnect,
        in_room_leave_all. intros [Hin Hne]%elem_of_difference.
      apply not_elem_of_singleton in Hne.
      destruct (IH _ _ Hin) as [Hs [He | Hm]].
      * split; [by apply elem_of_difference; rewrite not_elem_of_singleton | auto].
      * split; [by apply elem_of_difference; rewrite not_elem_of_singleton |].
        right. by apply members_disconnect_keep.
Qed.

Lemma run_own_room tr st : run tr st → own_room st.
Proof.
  induction 1 as [| tr st ev Hrun IH Hen].
  - intros s. by intros ?%not_elem_of_empty.
  - destruct ev; cbn [handle]; cbn [enabled] in Hen.
    + intros t. cbn [connect fst sockets adapter]. rewrite in_room_join.
      intros [->%elem_of_singleton | Hin]%elem_of_union.
      * rewrite decide_True by done. set_solver.
      * specialize (IH _ Hin). case_decide; [subst; set_solver | done].
    + intros t. cbn [join_room fst sockets adapter]. rewrite in_room_join.
      intros Hin. specialize (IH _ Hin). case_decide; [subst; set_solver | done].
    + eapply own_room_same; [apply video_event_same | done].
    + eapply own_room_same; [apply change_youtube_same | done].
    + eapply own_room_same; [apply change_uploaded_same | done].
    + by rewrite chat_message_state.
    + done.
    + intros t. rewrite sockets_disconnect, adapter_disconnect,
        in_room_leave_all. intros [Hin Hne]%elem_of_difference.
      specialize (IH _ Hin). set_solver.
Qed.

(** ** Broadcast scope *)

Lemma delivered_all a r t m : t ∈ in_room a r → delivered [emit_all a r m] t m.
Proof. intros Ht. eexists. split; [apply list_elem_of_here | done]. Qed.

Lemma delivered_others a s r t m :
  t ∈ in_room a r → t ≠ s → delivered [emit_others a s r m] t m.
Proof.
  intros Ht Hne. eexists. split; [apply list_elem_of_here |].
  split; [done |]. simpl. apply elem_of_difference.
  by rewrite not_elem_of_singleton.
Qed.

Lemma delivered_others_inv a s r t m m' :
  delivered [emit_others a s r m] t m' → m' = m ∧ t ∈ in_room a r ∧ t ≠ s.
Proof.
  intros (e & ->%list_elem_of_singleton & <- & Ht). simpl in Ht.
  apply elem_of_difference in Ht as [Ht Hne].
  by rewrite not_elem_of_singleton in Hne.
Qed.

(** C6. For a registered sender, in any run: a video-event is relayed to
    every other connected member of the sender's room and never to the
    sender, while a chat message and both video-changed notices reach every
    connected member of the room, the sender included. *)
Theorem broadcast_scope tr st s user :
  run tr st → users st !! s = Some user →
  (∀ data,
     ¬ receives (video_event st s data).2 s ∧
     ∀ t, t ∈ members st (roomId user) → t ∈ sockets st → t ≠ s →
       delivered (video_event st s data).2 t (VideoEventOut data)) ∧
  (∀ message now,
     delivered (chat_message st s message now).2 s
       (ChatMessageOut s (username user) message now) ∧
     ∀ t, t ∈ members st (roomId user) → t ∈ sockets st →
       delivered (chat_message st s message now).2 t
         (ChatMessageOut s (username user) message now)) ∧
  (∀ data,
     delivered (change_youtube_video st s data).2 s
       (YoutubeVideoChanged (videoId data) (title data)) ∧
     ∀ t, t ∈ members st (roomId user) → t ∈ sockets st →
       delivered (change_youtube_video st s data).2 t
         (YoutubeVideoChanged (videoId data) (title data))) ∧
  (∀ data,
     delivered (change_uploaded_video st s data).2 s
       (UploadedVideoChanged (fileUrl data) (fileName data)) ∧
     ∀ t, t ∈ members st (roomId user) → t ∈ sockets st →
       delivered (change_uploaded_video st s data).2 t
         (UploadedVideoChanged (fileUrl data) (fileName data))).
Proof.
  intros Hrun Hu.
  destruct (run_registry_ok _ _ Hrun _ _ Hu) as (Hs & Ha & Hm).
  pose proof (run_live_members_joined _ _ Hrun) as Hlive.
  assert (Hroom : is_Some (rooms st !! roomId user)).
  { apply rooms_nonempty_members; [by eapply run_rooms_nonempty |].
    intros Hnil. rewrite Hnil in Hm. by apply not_elem_of_nil in Hm. }
  split_and!.
  - intros data. rewrite (video_event_out _ _ _ _ Hu Hroom). split.
    + intros [m (_ & _ & Hne)%delivered_others_inv]. done.
    + intros t Ht Hts Hne. apply delivered_others; auto.
  - intros message now. unfold chat_message. rewrite Hu. simpl.
    split; [| intros t Ht Hts]; apply delivered_all; auto.
  - intros data. unfold change_youtube_video. rewrite Hu.
    destruct Hroom as [room ->]. simpl.
    split; [| intros t Ht Hts]; apply delivered_all; auto.
  - intros data. unfold change_uploaded_video. rewrite Hu.
    destruct Hroom as [room ->]. simpl.
    split; [| intros t Ht Hts]; apply delivered_all; auto.
Qed.

Lemma broadcast_scope_witness :
  ¬ receives (video_event (after pair_joins) "a"
                (video_ev "play" (VNumber 3) VUndefined)).2 "a" ∧
  delivered (video_event (after pair_joins) "a"
               (video_ev "play" (VNumber 3) VUndefined)).2 "b"
    (VideoEventOut (video_ev "play" (VNumber 3) VUndefined)) ∧
  delivered (chat_message (after pair_joins) "a" (VString "hi") "t0").2 "a"
    (ChatMessageOut "a" (VString "alice") (VString "hi") "t0").
Proof.
  destruct (broadcast_scope (rev pair_joins) (after pair_joins) "a"
              alice_in_r1)
    as (Hv & Hc & _).
  - apply run_from_init. vm_compute. reflexivity.
  - vm_compute. reflexivity.
  - destruct (Hv (video_ev "play" (VNumber 3) VUndefined)) as [Hself Hother].
    split_and!.
    + exact Hself.
    + apply Hother.
      * vm_compute. apply list_elem_of_further, list_elem_of_here.
      * vm_compute. reflexivity.
      * discriminate.
    + exact (proj1 (Hc (VString "hi") "t0")).
Defined.

(** ** Signalling relay *)

(** Carol's offer addressed to Alice also reaches Bob. *)
Lemma relay_reaches_bystander :
  ¬ relay_only_to_target (after bob_listens_in) "c" offer
      {| target := "a"; payload := VString "sdp" |}.
Proof.
  intros (_ & Honly & _).
  assert (Hb : "b" = "a"); [| discriminate].
  apply Honly. eexists. eexists. split; [apply list_elem_of_here |].
  split; [reflexivity |]. vm_compute. reflexivity.
Qed.

(** Carol's offer addressed to "r1", which is no connection but the room of
    Alice and Bob, reaches Alice. *)
Example relay_reaches_room :
  ¬ relay_only_to_target (after pair_and_carol) "c" offer
      {| target := "r1"; payload := VString "sdp" |}.
Proof.
  intros (_ & _ & Hnone). apply (Hnone ltac:(vm_compute; discriminate) "a").
  eexists. eexists. split; [apply list_elem_of_here |].
  split; [reflexivity |]. vm_compute. reflexivity.
Qed.

(** C7, as the code has it. A signalling message changes no state and is
    sent, whether or not sender and target share a room, to the broadcast
    room named by the target minus the sender: to the target connection when
    it is live, and to the connected members of a room whose identifier is
    the target string. When the target is neither a live connection nor a
    room in the store, nobody receives anything. *)
Theorem signal_relay tr st s kind data :
  run tr st →
  (webrtc_signal st s kind data).1 = st ∧
  (∀ t m, delivered (webrtc_signal st s kind data).2 t m →
     m = SignalOut kind (payload data) s ∧ t ≠ s ∧ t ∈ sockets st ∧
     (t = target data ∨ t ∈ members st (target data))) ∧
  (target data ∈ sockets st → target data ≠ s →
     delivered (webrtc_signal st s kind data).2 (target data)
       (SignalOut kind (payload data) s)) ∧
  (∀ t, t ∈ members st (target data) → t ∈ sockets st → t ≠ s →
     delivered (webrtc_signal st s kind data).2 t
       (SignalOut kind (payload data) s)) ∧
  (target data ∉ sockets st → rooms st !! target data = None →
     ∀ t, ¬ receives (webrtc_signal st s kind data).2 t).
Proof.
  intros Hrun. pose proof (run_adapter_ok _ _ Hrun) as Hadapter.
  unfold webrtc_signal. cbn [fst snd]. split_and!.
  - done.
  - intros t m (-> & Ht & Hne)%delivered_others_inv.
    destruct (Hadapter _ _ Ht) as [Hs Hm]. done.
  - intros Ht Hne. apply delivered_others; [| done].
    by eapply run_own_room.
  - intros t Hm Hs Hne. apply delivered_others; [| done].
    by eapply run_live_members_joined.
  - intros Hs Hr t [m (_ & Ht & _)%delivered_others_inv].
    destruct (Hadapter _ _ Ht) as [Hs' [-> | Hm]]; [done |].
    rewrite (members_absent _ _ Hr) in Hm. by apply not_elem_of_nil in Hm.
Qed.

Lemma signal_relay_witness :
  delivered (webrtc_signal (after pair_and_carol) "c" offer
               {| target := "a"; payload := VString "sdp" |}).2 "a"
    (SignalOut offer (VString "sdp") "c") ∧
  ¬ receives (webrtc_signal (after pair_and_carol) "c" offer
                {| target := "zz"; payload := VString "sdp" |}).2 "a".
Proof.
  split.
  - destruct (signal_relay (rev pair_and_carol) (after pair_and_carol) "c"
                offer {| target := "a"; payload := VString "sdp" |})
      as (_ & _ & H & _).
    + apply run_from_init. vm_compute. reflexivity.
    + apply H.
      * vm_compute. reflexivity.
      * discriminate.
  - destruct (signal_relay (rev pair_and_carol) (after pair_and_carol) "c"
                offer {| target := "zz"; payload := VString "sdp" |})
      as (_ & _ & _ & _ & H).
    + apply run_from_init. vm_compute. reflexivity.
    + apply H.
      * vm_compute. discriminate.
      * vm_compute. reflexivity.
Defined.

(** * Further properties of the handlers *)

(** ** Guards *)

Lemma users_same_or_deleted st ev s :
  (∀ data, ev ≠ JoinRoom s data) →
  users st !! s = None → users (handle st ev).1 !! s = None.
Proof.
  intros Hev Hu. destruct ev; cbn [handle].
  - done.
  - cbn. rewrite lookup_insert_ne; [done |]. intros ->. by eapply Hev.
  - by destruct (video_event_same st s0 data) as (_ & _ & -> & _).
  - by destruct (change_youtube_same st s0 data) as (_ & _ & -> & _).
  - by destruct (change_uploaded_same st s0 data) as (_ & _ & -> & _).
  - by rewrite chat_message_state.
  - done.
  - rewrite users_disconnect, lookup_delete. by case_decide.
Qed.

Lemma run_unjoined_unregistered tr st s :
  run tr st → (∀ data, JoinRoom s data ∉ tr) → users st !! s = None.
Proof.
  induction 1 as [| tr st ev Hrun IH Hen]; intros Hnever; [done |].
  apply users_same_or_deleted.
  - intros data ->. apply (Hnever data), list_elem_of_here.
  - apply IH. intros data Hin. by apply (Hnever data), list_elem_of_further.
Qed.

(** X1. In any run, the video-events, video changes and chat messages a
    socket sends before its first join-room are dropped: they leave the
    state as it was and emit nothing; and its disconnect touches neither map
    and notifies nobody. The signalling relay is not among them: it has no
    such guard, and an offer, answer or candidate from a socket that never
    joined is delivered to a live target like any other. *)
Theorem events_before_join_dropped tr st s :
  run tr st → (∀ data, JoinRoom s data ∉ tr) →
  (∀ data, video_event st s data = (st, [])) ∧
  (∀ data, change_youtube_video st s data = (st, [])) ∧
  (∀ data, change_uploaded_video st s data = (st, [])) ∧
  (∀ message now, chat_message st s message now = (st, [])) ∧
  rooms (disconnect st s).1 = rooms st ∧
  users (disconnect st s).1 = users st ∧
  (disconnect st s).2 = [] ∧
  (∀ kind data, target data ∈ sockets st → target data ≠ s →
     delivered (webrtc_signal st s kind data).2 (target data)
       (SignalOut kind (payload data) s)).
Proof.
  intros Hrun Hnever.
  pose proof (run_unjoined_unregistered _ _ _ Hrun Hnever) as Hu.
  split_and!;
    try (intros;
         unfold video_event, change_youtube_video, change_uploaded_video,
           chat_message, disconnect; by rewrite Hu).
  intros kind data Ht Hne. unfold webrtc_signal. cbn [snd].
  apply delivered_others; [| done]. by eapply run_own_room.
Qed.

Lemma events_before_join_dropped_witness :
  video_event (after pair_and_carol) "c" (video_ev "play" (VNumber 1) VUndefined)
    = (after pair_and_carol, []) ∧
  chat_message (after pair_and_carol) "c" (VString "hi") "t0"
    = (after pair_and_carol, []) ∧
  (disconnect (after pair_and_carol) "c").2 = [] ∧
  delivered (webrtc_signal (after pair_and_carol) "c" offer
               {| target := "a"; payload := VString "sdp" |}).2 "a"
    (SignalOut offer (VString "sdp") "c").
Proof.
  destruct (events_before_join_dropped (rev pair_and_carol)
              (after pair_and_carol) "c")
    as (Hv & _ & _ & Hc & _ & _ & Hd & Hrelay).
  - apply run_from_init. vm_compute. reflexivity.
  - intros data Hin. vm_compute in Hin.
    repeat (apply elem_of_cons in Hin as [Hin | Hin]; [discriminate |]).
    by apply not_elem_of_nil in Hin.
  - split_and!; [apply Hv | apply Hc | exact Hd |].
    apply (Hrelay offer {| target := "a"; payload := VString "sdp" |}).
    + vm_compute. reflexivity.
    + discriminate.
Defined.

Lemma run_registered_room tr st s user :
  run tr st → users st !! s = Some user →
  s ∈ sockets st ∧
  ∃ room, rooms st !! roomId user = Some room ∧ s ∈ room_users room.
Proof.
  intros Hrun Hu.
  destruct (run_registry_ok _ _ Hrun _ _ Hu) as (Hs & _ & Hm).
  split; [done |]. unfold members in Hm.
  destruct (rooms st !! roomId user) as [room|]; [eauto |].
  by apply not_elem_of_nil in Hm.
Qed.

(** X2. In every run a registered participant is a live connection, its room
    is in the store and lists it as a member: the [!rooms.has(user.roomId)]
    half of the handlers' guard never fires, and the registry never names a
    participant that has disconnected. *)
Theorem registered_participant_has_room tr st s user :
  run tr st → users st !! s = Some user →
  s ∈ sockets st ∧
  ∃ room, rooms st !! roomId user = Some room ∧ s ∈ room_users room.
Proof. apply run_registered_room. Qed.

Lemma registered_participant_has_room_witness :
  "b" ∈ sockets (after pair_joins) ∧
  ∃ room, rooms (after pair_joins) !! "r1" = Some room ∧ "b" ∈ room_users room.
Proof.
  apply (registered_participant_has_room (rev pair_joins) (after pair_joins)
           "b" {| roomId := "r1"; username := VString "bob" |}).
  - apply run_from_init. vm_compute. reflexivity.
  - vm_compute. reflexivity.
Defined.

(** ** Leaving *)

(** X3. When a registered participant disconnects, in any run: its registry
    record is deleted, it is no longer a member of its room, it is in no
    broadcast room, every other connected member of the room is sent
    user-left with its id and registered name, and it receives nothing
    itself. *)
Theorem disconnect_notifies_room tr st s user :
  run tr st → users st !! s = Some user →
  users (disconnect st s).1 !! s = None ∧
  (s ∉ members (disconnect st s).1 (roomId user)) ∧
  (∀ r, s ∉ in_room (adapter (disconnect st s).1) r) ∧
  (∀ t, t ∈ members st (roomId user) → t ∈ sockets st → t ≠ s →
     delivered (disconnect st s).2 t (UserLeft s (username user))) ∧
  ¬ receives (disconnect st s).2 s.
Proof.
  intros Hrun Hu.
  destruct (run_registered_room _ _ _ _ Hrun Hu)
    as (Hs & room & Hroom & Hin).
  split_and!.
  - rewrite users_disconnect. apply lookup_delete_eq.
  - rewrite members_disconnect, Hu, decide_True by done.
    rewrite elem_of_set_delete. tauto.
  - intros r. rewrite adapter_disconnect, in_room_leave_all.
    rewrite elem_of_difference, elem_of_singleton. tauto.
  - intros t Ht Hts Hne.
    assert (Hkeep : t ∈ set_delete s (room_users room)).
    { apply elem_of_set_delete. split; [| done].
      by rewrite <- (members_lookup _ _ _ Hroom). }
    assert (Hroom_t : t ∈ in_room (leave_all (adapter st) s) (roomId user)).
    { rewrite in_room_leave_all. apply elem_of_difference.
      split; [by eapply run_live_members_joined |].
      by rewrite not_elem_of_singleton. }
    unfold disconnect. rewrite Hu, Hroom. case_decide as Hlen.
    + apply nil_length_inv in Hlen. rewrite Hlen in Hkeep.
      by apply not_elem_of_nil in Hkeep.
    + simpl. by apply delivered_others.
  - intros [m (e & He & _ & Hrc)]. revert He. unfold disconnect.
    rewrite Hu, Hroom. case_decide; simpl.
    + by intros ?%not_elem_of_nil.
    + intros ->%list_elem_of_singleton. simpl in Hrc.
      apply elem_of_difference in Hrc as [_ Hne].
      by apply Hne, elem_of_singleton.
Qed.

Lemma disconnect_notifies_room_witness :
  delivered (disconnect (after pair_joins) "a").2 "b"
    (UserLeft "a" (VString "alice")) ∧
  users (disconnect (after pair_joins) "a").1 !! "a" = None.
Proof.
  destruct (disconnect_notifies_room (rev pair_joins) (after pair_joins) "a"
              alice_in_r1) as (Hu & _ & _ & Hd & _).
  - apply run_from_init. vm_compute. reflexivity.
  - vm_compute. reflexivity.
  - split; [| exact Hu]. apply Hd.
    + vm_compute. apply list_elem_of_further, list_elem_of_here.
    + vm_compute. reflexivity.
    + discriminate.
Defined.

Lemma join_room_out_room st s data room1 :
  rooms (join_room st s data).1 !! jd_roomId data = Some room1 →
  (join_room st s data).2 =
  [ emit_others (adapter (join_room st s data).1) s (jd_roomId data)
      (UserJoined s (jd_username data));
    emit_self s
      (RoomState (currentVideo room1) (room_videoType room1)
         (playbackState room1) (snapshot_users st s data)) ].
Proof.
  intros Hroom1. unfold snapshot_users, members. rewrite Hroom1.
  rewrite join_room_lookup in Hroom1. injection Hroom1 as <-.
  unfold join_room, members. simpl.
  destruct (rooms st !! jd_roomId data) as [room|] eqn:Hr; simpl;
    by rewrite ?Hr, ?lookup_insert_eq.
Qed.



(** ** Joining an existing room *)

(** X5. A join to a room that is in the store changes nothing of the room
    but its member set, and the snapshot sent to the joiner carries the
    room's video reference, video kind and playback state as they stand. *)
Theorem join_existing_room_snapshot st s data room :
  rooms st !! jd_roomId data = Some room →
  rooms (join_room st s data).1 !! jd_roomId data =
    Some (with_users room (set_add s (room_users room))) ∧
  delivered (join_room st s data).2 s
    (RoomState (currentVideo room) (room_videoType room) (playbackState room)
       (snapshot_users st s data)).
Proof.
  intros Hroom.
  assert (Hnew : rooms (join_room st s data).1 !! jd_roomId data =
                   Some (with_users room (set_add s (room_users room)))).
  { rewrite join_room_lookup, Hroom. simpl.
    by rewrite (members_lookup _ _ _ Hroom). }
  split; [done |]. rewrite (join_room_out_room _ _ _ _ Hnew).
  eexists. split; [apply list_elem_of_further, list_elem_of_here |].
  split; [done |]. simpl. by apply elem_of_singleton.
Qed.

Lemma join_existing_room_snapshot_witness :
  delivered (join_room (after (alice_seeks ++ [Connect "b"])) "b"
               (join_as "r1" "bob")).2 "b"
    (RoomState VNull None
       {| isPlaying := false; currentTime := VNumber 42;
          playbackRate := VNumber 1.5 |}
       (snapshot_users (after (alice_seeks ++ [Connect "b"])) "b"
          (join_as "r1" "bob"))).
Proof.
  destruct (join_existing_room_snapshot (after (alice_seeks ++ [Connect "b"]))
              "b" (join_as "r1" "bob") room_at_42) as [_ H].
  - vm_compute. reflexivity.
  - exact H.
Defined.

(** X6. In any run, a join is announced with user-joined to every connected
    member the room already had, and the joiner, who gets the snapshot, is
    not sent its own user-joined. *)
Theorem join_announced_to_others tr st s data :
  run tr st →
  (∀ t, t ∈ members st (jd_roomId data) → t ∈ sockets st → t ≠ s →
     delivered (join_room st s data).2 t (UserJoined s (jd_username data))) ∧
  (∀ t name, ¬ delivered (join_room st s data).2 s (UserJoined t name)).
Proof.
  intros Hrun.
  destruct (join_room_out st s data) as (video & vt & ps & Hout).
  rewrite Hout. split.
  - intros t Ht Hts Hne. eexists. split; [apply list_elem_of_here |].
    split; [done |]. simpl. apply elem_of_difference.
    rewrite not_elem_of_singleton. split; [| done].
    unfold join_room. simpl. rewrite in_room_join, decide_True by done.
    apply elem_of_union_r. by eapply run_live_members_joined.
  - intros t name (e & He & Hm & Hrc).
    apply elem_of_cons in He as [-> | He].
    + simpl in Hrc. apply elem_of_difference in Hrc as [_ Hne].
      by apply Hne, elem_of_singleton.
    + apply list_elem_of_singleton in He as ->. discriminate.
Qed.

Lemma join_announced_to_others_witness :
  delivered (join_room (after (alice_joins ++ [Connect "b"])) "b"
               (join_as "r1" "bob")).2 "a" (UserJoined "b" (VString "bob")).
Proof.
  destruct (join_announced_to_others (rev (alice_joins ++ [Connect "b"]))
              (after (alice_joins ++ [Connect "b"])) "b" (join_as "r1" "bob"))
    as [H _].
  - apply run_from_init. vm_compute. reflexivity.
  - apply H.
    + vm_compute. apply list_elem_of_here.
    + vm_compute. reflexivity.
    + discriminate.
Defined.

(** ** Where messages go *)

(** X7. In any run, whatever a handler sends reaches live connections only:
    a socket that has disconnected is never among the recipients. *)
Theorem only_live_sockets_receive tr st ev t :
  run tr st → enabled tr st ev →
  receives (handle st ev).2 t → t ∈ sockets (handle st ev).1.
Proof.
  intros Hrun Hen.
  assert (Hrun' : run (ev :: tr) (handle st ev).1) by by constructor.
  pose proof (run_adapter_ok _ _ Hrun) as Hok.
  pose proof (run_adapter_ok _ _ Hrun') as Hok'.
  intros [m (e & He & _ & Hrc)]. revert He Hok'.
  destruct ev; cbn [handle enabled] in *.
  - by intros ?%not_elem_of_nil.
  - intros [-> | ->%list_elem_of_singleton]%elem_of_cons Hok'.
    + simpl in Hrc. apply elem_of_difference in Hrc as [Hrc _].
      by apply Hok' in Hrc as [? _].
    + simpl in Hrc. by apply elem_of_singleton in Hrc as ->.
  - destruct (video_event_same st s data) as (-> & _). intros He _.
    revert He. unfold video_event.
    destruct (users st !! s) as [user|]; [| by intros ?%not_elem_of_nil].
    destruct (rooms st !! roomId user); [| by intros ?%not_elem_of_nil].
    intros ->%list_elem_of_singleton. simpl in Hrc.
    apply elem_of_difference in Hrc as [Hrc _]. by apply Hok in Hrc as [? _].
  - destruct (change_youtube_same st s data) as (-> & _). intros He _.
    revert He. unfold change_youtube_video.
    destruct (users st !! s) as [user|]; [| by intros ?%not_elem_of_nil].
    destruct (rooms st !! roomId user); [| by intros ?%not_elem_of_nil].
    intros ->%list_elem_of_singleton. simpl in Hrc.
    by apply Hok in Hrc as [? _].
  - destruct (change_uploaded_same st s data) as (-> & _). intros He _.
    revert He. unfold change_uploaded_video.
    destruct (users st !! s) as [user|]; [| by intros ?%not_elem_of_nil].
    destruct (rooms st !! roomId user); [| by intros ?%not_elem_of_nil].
    intros ->%list_elem_of_singleton. simpl in Hrc.
    by apply Hok in Hrc as [? _].
  - rewrite chat_message_state. intros He _. revert He. unfold chat_message.
    destruct (users st !! s) as [user|]; [| by intros ?%not_elem_of_nil].
    intros ->%list_elem_of_singleton. simpl in Hrc.
    by apply Hok in Hrc as [? _].
  - intros ->%list_elem_of_singleton _. simpl in Hrc.
    apply elem_of_difference in Hrc as [Hrc _]. by apply Hok in Hrc as [? _].
  - intros He Hok'. revert He. unfold disconnect.
    destruct (users st !! s) as [user|] eqn:Hu;
      [| by intros ?%not_elem_of_nil].
    destruct (rooms st !! roomId user) as [room|] eqn:Hroom;
      [| by intros ?%not_elem_of_nil].
    case_decide; simpl; [by intros ?%not_elem_of_nil |].
    intros ->%list_elem_of_singleton. simpl in Hrc.
    rewrite in_room_leave_all in Hrc.
    apply elem_of_difference in Hrc as [[Hrc Hne]%elem_of_difference _].
    apply elem_of_difference. split; [| done]. by apply Hok in Hrc as [? _].
Qed.

Lemma only_live_sockets_receive_witness :
  "b" ∈ sockets (handle (after pair_joins) (Disconnect "a")).1.
Proof.
  apply (only_live_sockets_receive (rev pair_joins) (after pair_joins)
           (Disconnect "a") "b").
  - apply run_from_init. vm_compute. reflexivity.
  - vm_compute. reflexivity.
  - exists (UserLeft "a" (VString "alice")). eexists.
    split; [apply list_elem_of_here |].
    split; [reflexivity |]. vm_compute. reflexivity.
Defined.

(** ** More on playback *)

Lemma is_str_seek_not_play_pause v :
  is_str v "seek" = true → is_str v "play" = false ∧ is_str v "pause" = false.
Proof. by intros ->%is_str_eq. Qed.

(** X8. A playback event writes only the fields of its kind: play, pause and
    seek keep the rate, seek and rate-change keep the playing flag,
    rate-change keeps the time; play sets the flag and pause clears it. And
    a video-event leaves the room's members, video reference and video kind
    alone. *)
Theorem playback_event_writes_own_fields ps data :
  (time_kind (ve_type data) = true →
     playbackRate (apply_video_event ps data) = playbackRate ps) ∧
  (is_str (ve_type data) "play" = true →
     isPlaying (apply_video_event ps data) = true) ∧
  (is_str (ve_type data) "pause" = true →
     isPlaying (apply_video_event ps data) = false) ∧
  (is_str (ve_type data) "seek" = true →
     isPlaying (apply_video_event ps data) = isPlaying ps) ∧
  (is_str (ve_type data) "rate-change" = true →
     isPlaying (apply_video_event ps data) = isPlaying ps ∧
     currentTime (apply_video_event ps data) = currentTime ps) ∧
  (∀ st s user room,
     users st !! s = Some user → rooms st !! roomId user = Some room →
     ∃ room', rooms (video_event st s data).1 !! roomId user = Some room' ∧
       room_users room' = room_users room ∧
       currentVideo room' = currentVideo room ∧
       room_videoType room' = room_videoType room).
Proof.
  split_and!.
  - unfold time_kind, apply_video_event. intros H.
    destruct (is_str (ve_type data) "play"); [done |].
    destruct (is_str (ve_type data) "pause"); [done |].
    destruct (is_str (ve_type data) "seek"); [done | discriminate].
  - unfold apply_video_event. by intros ->.
  - intros H%is_str_eq. unfold apply_video_event. by rewrite H.
  - intros H%is_str_eq. unfold apply_video_event. by rewrite H.
  - intros H. by rewrite apply_rate_change.
  - intros st s user room Hu Hroom. eexists.
    split; [by apply video_event_lookup | done].
Qed.

Lemma playback_event_writes_own_fields_witness :
  playbackRate
    (apply_video_event (playbackState room_at_42)
       (video_ev "seek" (VNumber 10) VUndefined)) = VNumber 1.5 ∧
  currentTime
    (apply_video_event (playbackState room_at_42)
       (video_ev "rate-change" VUndefined (VNumber 2))) = VNumber 42.
Proof.
  destruct (playback_event_writes_own_fields (playbackState room_at_42)
              (video_ev "seek" (VNumber 10) VUndefined))
    as (Hrate & _).
  destruct (playback_event_writes_own_fields (playbackState room_at_42)
              (video_ev "rate-change" VUndefined (VNumber 2)))
    as (_ & _ & _ & _ & Htime & _).
  split.
  - apply Hrate. reflexivity.
  - apply Htime. reflexivity.
Defined.

Lemma apply_video_event_twice ps data :
  apply_video_event (apply_video_event ps data) data =
  apply_video_event ps data.
Proof.
  unfold apply_video_event.
  destruct (is_str (ve_type data) "play"); [done |].
  destruct (is_str (ve_type data) "pause"); [done |].
  destruct (is_str (ve_type data) "seek"); [done |].
  by destruct (is_str (ve_type data) "rate-change").
Qed.

Lemma guarded_update_twice st s f :
  (∀ room, f (f room) = f room) →
  guarded_update (guarded_update st s f) s f = guarded_update st s f.
Proof.
  intros Hf. unfold guarded_update at 2 3.
  destruct (users st !! s) as [user|] eqn:Hu.
  - destruct (rooms st !! roomId user) as [room|] eqn:Hroom.
    + unfold guarded_update. simpl. rewrite Hu, lookup_insert_eq.
      unfold set_rooms. simpl. by rewrite insert_insert_eq, Hf.
    + unfold guarded_update. by rewrite Hu, Hroom.
  - unfold guarded_update. by rewrite Hu.
Qed.

(** X9. Handling the same video-event a second time changes nothing more:
    the state after the repeat is the state after the first, whoever the
    sender and whatever the event. The same holds for a repeated video
    change. *)
Theorem repeated_event_idempotent st s :
  (∀ data,
     (video_event (video_event st s data).1 s data).1 =
     (video_event st s data).1) ∧
  (∀ data,
     (change_youtube_video (change_youtube_video st s data).1 s data).1 =
     (change_youtube_video st s data).1) ∧
  (∀ data,
     (change_uploaded_video (change_uploaded_video st s data).1 s data).1 =
     (change_uploaded_video st s data).1).
Proof.
  split_and!; intros data.
  - rewrite !video_event_state. apply guarded_update_twice.
    intros room. unfold with_playback. simpl.
    by rewrite apply_video_event_twice.
  - rewrite !change_youtube_state. by apply guarded_update_twice.
  - rewrite !change_uploaded_state. by apply guarded_update_twice.
Qed.

Lemma js_or_zero v :
  js_or v (VNumber 0) = VNumber 0 ∨ truthy (js_or v (VNumber 0)) = true.
Proof. unfold js_or. destruct (truthy v) eqn:Hv; auto. Qed.

Lemma apply_time_ok ps data :
  currentTime ps = VNumber 0 ∨ truthy (currentTime ps) = true →
  currentTime (apply_video_event ps data) = VNumber 0 ∨
  truthy (currentTime (apply_video_event ps data)) = true.
Proof.
  intros Hps. unfold apply_video_event.
  repeat (case_match; simpl; try done); apply js_or_zero.
Qed.

Lemma run_time_ok tr st : run tr st → time_ok st.
Proof.
  induction 1 as [| tr st ev Hrun IH Hen].
  - intros r room. unfold init. simpl. by rewrite lookup_empty.
  - destruct ev; cbn [handle].
    + done.
    + intros r room. destruct (decide (r = jd_roomId data)) as [-> | Hne].
      * rewrite join_room_lookup. intros [= <-]. simpl.
        destruct (rooms st !! jd_roomId data) as [room0|] eqn:Hr; simpl.
        -- by eapply IH.
        -- by left.
      * rewrite join_room_lookup_ne by done. apply IH.
    + rewrite video_event_state.
      intros r room' (room & Hr & [-> | ->])%guarded_update_lookup;
        [by eapply IH |]. simpl. apply apply_time_ok. by eapply IH.
    + rewrite change_youtube_state.
      intros r room' (room & Hr & [-> | ->])%guarded_update_lookup;
        [by eapply IH | by left].
    + rewrite change_uploaded_state.
      intros r room' (room & Hr & [-> | ->])%guarded_update_lookup;
        [by eapply IH | by left].
    + by rewrite chat_message_state.
    + done.
    + intros r room. rewrite disconnect_rooms.
      destruct (users st !! s) as [user|]; [| apply IH].
      destruct (rooms st !! roomId user) as [room0|] eqn:Hr; [| apply IH].
      case_decide.
      * rewrite lookup_delete. case_decide; [done | apply IH].
      * rewrite lookup_insert. case_decide; [| apply IH].
        intros [= <-]. simpl. subst. by eapply IH.
Qed.

(** X10. In every run the stored playback time of every room is the number
    0 or a truthy value, so it is never [undefined], [null], [NaN] or an
    empty string, whatever the clients sent. *)
Theorem stored_time_never_missing tr st r room :
  run tr st → rooms st !! r = Some room →
  let t := currentTime (playbackState room) in
  ((t = VNumber 0 ∨ truthy t = true) ∧
   t ≠ VUndefined ∧ t ≠ VNull ∧ t ≠ VString "" ∧
   ∀ x, t = VNumber x → PrimFloat.is_nan x = false).
Proof.
  intros Hrun Hr t.
  assert (Ht : t = VNumber 0 ∨ truthy t = true) by by eapply run_time_ok.
  split; [done |].
  split_and!; try (intros Heq; rewrite Heq in Ht; by destruct Ht).
  intros x Heq. rewrite Heq in Ht. destruct Ht as [Ht | Ht].
  - apply (f_equal (λ v, match v with
                         | VNumber y => PrimFloat.is_nan y
                         | _ => false
                         end)) in Ht. by rewrite Ht.
  - simpl in Ht. apply negb_true_iff, orb_false_elim in Ht. tauto.
Qed.

Lemma stored_time_never_missing_witness :
  currentTime (playbackState room_at_42) ≠ VUndefined.
Proof.
  apply (stored_time_never_missing (rev alice_seeks) (after alice_seeks) "r1"
           room_at_42).
  - apply run_from_init. vm_compute. reflexivity.
  - vm_compute. reflexivity.
Defined.

Lemma run_video_ref_ok tr st : run tr st → video_ref_ok st.
Proof.
  induction 1 as [| tr st ev Hrun IH Hen].
  - intros r room. unfold init. simpl. by rewrite lookup_empty.
  - destruct ev; cbn [handle].
    + done.
    + intros r room. destruct (decide (r = jd_roomId data)) as [-> | Hne].
      * rewrite join_room_lookup. intros [= <-]. simpl.
        destruct (rooms st !! jd_roomId data) as [room0|] eqn:Hr; simpl.
        -- by eapply IH.
        -- done.
      * rewrite join_room_lookup_ne by done. apply IH.
    + rewrite video_event_state.
      intros r room' (room & Hr & [-> | ->])%guarded_update_lookup;
        simpl; by eapply IH.
    + rewrite change_youtube_state.
      intros r room' (room & Hr & [-> | ->])%guarded_update_lookup;
        [by eapply IH | done].
    + rewrite change_uploaded_state.
      intros r room' (room & Hr & [-> | ->])%guarded_update_lookup;
        [by eapply IH | done].
    + by rewrite chat_message_state.
    + done.
    + intros r room. rewrite disconnect_rooms.
      destruct (users st !! s) as [user|]; [| apply IH].
      destruct (rooms st !! roomId user) as [room0|] eqn:Hr; [| apply IH].
      case_decide.
      * rewrite lookup_delete. case_decide; [done | apply IH].
      * rewrite lookup_insert. case_decide; [| apply IH].
        intros [= <-]. simpl. subst. by eapply IH.
Qed.

(** X11. In every run, a room whose video kind is still [null] has the video
    reference [null] too: a reference is never stored without a kind. *)
Theorem no_video_without_kind tr st r room :
  run tr st → rooms st !! r = Some room →
  room_videoType room = None → currentVideo room = VNull.
Proof. intros Hrun. apply (run_video_ref_ok _ _ Hrun). Qed.

Lemma no_video_without_kind_witness : currentVideo room_at_42 = VNull.
Proof.
  apply (no_video_without_kind (rev alice_seeks) (after alice_seeks) "r1").
  - apply run_from_init. vm_compute. reflexivity.
  - vm_compute. reflexivity.
  - reflexivity.
Defined.

(** ** Rooms do not leak into each other *)

Lemma guarded_update_lookup_ne st s f user r :
  users st !! s = Some user → r ≠ roomId user →
  rooms (guarded_update st s f) !! r = rooms st !! r.
Proof.
  intros Hu Hne. unfold guarded_update. rewrite Hu.
  destruct (rooms st !! roomId user); [| done].
  simpl. by rewrite lookup_insert_ne.
Qed.

(** X12. In any run, what a registered participant does in its room stays in
    that room: a video-event, a video change or a chat message leaves the
    store entry of every other room untouched and is delivered only to
    connected members of the sender's room (or to the connection whose id is
    that room's identifier). *)
Theorem room_events_stay_in_room tr st s user ev :
  run tr st → users st !! s = Some user →
  (∃ data, ev = VideoEvent s data) ∨ (∃ data, ev = ChangeYoutubeVideo s data) ∨
  (∃ data, ev = ChangeUploadedVideo s data) ∨
  (∃ m now, ev = ChatMessage s m now) →
  (∀ r, r ≠ roomId user → rooms (handle st ev).1 !! r = rooms st !! r) ∧
  (∀ t, receives (handle st ev).2 t →
     t ∈ sockets st ∧ (t = roomId user ∨ t ∈ members st (roomId user))).
Proof.
  intros Hrun Hu Hev. pose proof (run_adapter_ok _ _ Hrun) as Hok.
  destruct (run_registered_room _ _ _ _ Hrun Hu) as (_ & room & Hroom & _).
  destruct Hev as [[data ->] | [[data ->] | [[data ->] | (m & now & ->)]]];
    cbn [handle]; split.
  - intros r Hne. rewrite video_event_state.
    by eapply guarded_update_lookup_ne.
  - intros t [m (e & He & _ & Hrc)]. revert He. unfold video_event.
    rewrite Hu, Hroom. intros ->%list_elem_of_singleton. simpl in Hrc.
    apply elem_of_difference in Hrc as [Hrc _]. by apply Hok.
  - intros r Hne. rewrite change_youtube_state.
    by eapply guarded_update_lookup_ne.
  - intros t [m (e & He & _ & Hrc)]. revert He. unfold change_youtube_video.
    rewrite Hu, Hroom. intros ->%list_elem_of_singleton. by apply Hok.
  - intros r Hne. rewrite change_uploaded_state.
    by eapply guarded_update_lookup_ne.
  - intros t [m (e & He & _ & Hrc)]. revert He. unfold change_uploaded_video.
    rewrite Hu, Hroom. intros ->%list_elem_of_singleton. by apply Hok.
  - intros r Hne. by rewrite chat_message_state.
  - intros t [m' (e & He & _ & Hrc)]. revert He. unfold chat_message.
    rewrite Hu. intros ->%list_elem_of_singleton. by apply Hok.
Qed.

Lemma room_events_stay_in_room_witness :
  rooms (handle (after two_rooms)
           (ChangeYoutubeVideo "a"
              {| videoId := VString "abc123"; title := VString "Demo" |})).1
    !! "r2" = rooms (after two_rooms) !! "r2".
Proof.
  destruct (room_events_stay_in_room (rev two_rooms) (after two_rooms) "a"
              alice_in_r1
              (ChangeYoutubeVideo "a"
                 {| videoId := VString "abc123"; title := VString "Demo" |}))
    as [H _].
  - apply run_from_init. vm_compute. reflexivity.
  - vm_compute. reflexivity.
  - right. left. eexists. reflexivity.
  - apply H. discriminate.
Defined.

(** * The HTTP routes *)

(** ** Strings *)

Lemma prefix_append n s : String.prefix n (n ++ s) = true.
Proof.
  induction n as [| c n IH]; simpl; [by destruct s |].
  by destruct (Ascii.ascii_dec c c).
Qed.

Lemma contains_prefix n hay : String.prefix n hay = true → contains n hay = true.
Proof. intros H. destruct hay; cbn [contains]; by rewrite H. Qed.

Lemma contains_append n pre suf : contains n (pre ++ n ++ suf) = true.
Proof.
  induction pre as [| c pre IH].
  - change (contains n (n ++ suf) = true).
    apply contains_prefix, prefix_append.
  - change (String c pre ++ n ++ suf)%string
      with (String c (pre ++ n ++ suf)).
    cbn [contains]. rewrite IH. apply orb_true_r.
Qed.

Lemma append_inj_length a c b d :
  String.length a = String.length c → (a ++ b = c ++ d)%string → a = c ∧ b = d.
Proof.
  revert c. induction a as [| x a IH]; intros [| y c]; simpl; try done.
  intros [= Hlen] [= -> Happ]. destruct (IH _ Hlen Happ) as [-> ->]. done.
Qed.

Lemma allowedTypes_test_token tok pre suf :
  tok ∈ allowed_tokens → allowedTypes_test (pre ++ tok ++ suf) = true.
Proof.
  unfold allowed_tokens, allowedTypes_test.
  rewrite !elem_of_cons. intros [-> | [-> | [-> | [-> | [-> | H]]]]];
    [| | | | | by apply not_elem_of_nil in H];
    rewrite contains_append; by rewrite ?orb_true_r.
Qed.

Lemma prefix_inv n hay :
  String.prefix n hay = true → ∃ suf, hay = (n ++ suf)%string.
Proof.
  revert hay. induction n as [| c n IH]; intros hay.
  - intros _. by exists hay.
  - destruct hay as [| b hay]; simpl; [done |].
    destruct (Ascii.ascii_dec c b) as [-> | ?]; [| done].
    intros [suf ->]%IH. by exists suf.
Qed.

Lemma contains_inv n hay :
  contains n hay = true → ∃ pre suf, hay = (pre ++ n ++ suf)%string.
Proof.
  induction hay as [| c hay IH]; cbn [contains].
  - rewrite orb_false_r. intros [suf ->]%prefix_inv. by exists "", suf.
  - intros [[suf ->]%prefix_inv | (pre & suf & ->)%IH]%orb_true_iff.
    + by exists "", suf.
    + by exists (String c pre), suf.
Qed.

(** The test succeeds exactly on the strings in which a token occurs. *)
Lemma allowedTypes_test_iff s :
  allowedTypes_test s = true ↔
  ∃ tok pre suf, tok ∈ allowed_tokens ∧ s = (pre ++ tok ++ suf)%string.
Proof.
  split.
  - unfold allowedTypes_test, allowed_tokens. rewrite !orb_true_iff.
    intros [[[[H | H] | H] | H] | H];
      apply contains_inv in H as (pre & suf & ->);
      eexists _, pre, suf; (split; [| reflexivity]);
      rewrite !elem_of_cons; tauto.
  - intros (tok & pre & suf & Htok & ->). by apply allowedTypes_test_token.
Qed.

(** ** Upload *)

(** X13. The upload filter accepts a file exactly when one of the tokens
    mp4, mkv, avi, mov, webm occurs somewhere in its lower-cased extension
    and one occurs somewhere in its MIME type; so extensions and types
    outside the five video formats pass too, as long as they contain a
    token. Every other file is rejected with the error 'Only video files are
    allowed'. *)
Theorem upload_filter_by_substring lower_ext file :
  (fileFilter lower_ext file = Accept ↔
     (∃ tok pre suf, tok ∈ allowed_tokens ∧
        lower_ext (originalname file) = pre ++ tok ++ suf) ∧
     (∃ tok pre suf, tok ∈ allowed_tokens ∧
        mimetype file = pre ++ tok ++ suf)) ∧
  (fileFilter lower_ext file = Accept ↔
     allowedTypes_test (lower_ext (originalname file)) = true ∧
     allowedTypes_test (mimetype file) = true) ∧
  (∀ tok1 pre1 suf1 tok2 pre2 suf2,
     tok1 ∈ allowed_tokens → tok2 ∈ allowed_tokens →
     lower_ext (originalname file) = pre1 ++ tok1 ++ suf1 →
     mimetype file = pre2 ++ tok2 ++ suf2 →
     fileFilter lower_ext file = Accept) ∧
  (fileFilter lower_ext file ≠ Accept →
     fileFilter lower_ext file =
     Reject (PlainError (VString "Only video files are allowed"))).
Proof.
  assert (Hiff : fileFilter lower_ext file = Accept ↔
     allowedTypes_test (lower_ext (originalname file)) = true ∧
     allowedTypes_test (mimetype file) = true).
  { unfold fileFilter.
    destruct (allowedTypes_test (mimetype file)),
      (allowedTypes_test (lower_ext (originalname file))); simpl;
      split; try done; intros [? ?]; done. }
  split_and!.
  - by rewrite Hiff, !allowedTypes_test_iff.
  - done.
  - intros tok1 pre1 suf1 tok2 pre2 suf2 H1 H2 Hext Hmime. apply Hiff.
    rewrite Hext, Hmime. split; by apply allowedTypes_test_token.
  - unfold fileFilter. by destruct (_ && _).
Qed.

(** A file named movie.mp4v sent as application/mp4 is accepted. *)
Lemma upload_filter_by_substring_witness :
  fileFilter last_dot_suffix
    {| originalname := "movie.mp4v"; mimetype := "application/mp4" |} = Accept ∧
  fileFilter last_dot_suffix
    {| originalname := "notes.txt"; mimetype := "text/plain" |} =
    Reject (PlainError (VString "Only video files are allowed")).
Proof.
  split.
  - destruct (upload_filter_by_substring last_dot_suffix
                {| originalname := "movie.mp4v";
                   mimetype := "application/mp4" |})
      as (_ & _ & H & _).
    apply (H "mp4" "." "v" "mp4" "application/" "").
    + vm_compute. apply list_elem_of_here.
    + vm_compute. apply list_elem_of_here.
    + vm_compute. reflexivity.
    + vm_compute. reflexivity.
  - destruct (upload_filter_by_substring last_dot_suffix
                {| originalname := "notes.txt"; mimetype := "text/plain" |})
      as (_ & _ & _ & H).
    apply H. vm_compute. discriminate.
Defined.

(** X14. The error middleware answers 400 exactly for a multer error whose
    code is LIMIT_FILE_SIZE; every other error, the upload filter's
    rejection among them, is answered 500 with the error's own message. *)
Theorem error_handler_statuses :
  (∀ error, status (error_handler error) = 400 ↔
     ∃ message, error = MulterError (VString "LIMIT_FILE_SIZE") message) ∧
  (∀ error, status (error_handler error) ≠ 400 →
     error_handler error =
     {| status := 500; body := ErrorBody (error_message error) |}) ∧
  (∀ lower_ext file error, fileFilter lower_ext file = Reject error →
     error_handler error =
     {| status := 500;
        body := ErrorBody (VString "Only video files are allowed") |}).
Proof.
  split_and!.
  - intros [message | code message]; simpl.
    + split; [done | by intros [? ?]].
    + destruct (is_str code "LIMIT_FILE_SIZE") eqn:Hcode; simpl.
      * apply is_str_eq in Hcode as ->. split; eauto.
      * split; [done |]. intros [m [= -> _]]. done.
  - intros [message | code message]; simpl; [done |].
    by destruct (is_str code "LIMIT_FILE_SIZE").
  - intros lower_ext file error. unfold fileFilter.
    destruct (_ && _); [done |]. by intros [= <-].
Qed.

Lemma error_handler_statuses_witness :
  status (error_handler (MulterError (VString "LIMIT_FILE_SIZE")
                           (VString "File too large"))) = 400 ∧
  error_handler (MulterError (VString "LIMIT_UNEXPECTED_FILE")
                   (VString "Unexpected field")) =
    {| status := 500; body := ErrorBody (VString "Unexpected field") |} ∧
  error_handler (PlainError (VString "Only video files are allowed")) =
    {| status := 500;
       body := ErrorBody (VString "Only video files are allowed") |}.
Proof.
  destruct error_handler_statuses as (H400 & H500 & Hfilter). split_and!.
  - apply H400. eexists. reflexivity.
  - apply H500. simpl. discriminate.
  - apply (Hfilter last_dot_suffix
             {| originalname := "notes.txt"; mimetype := "text/plain" |}).
    vm_compute. reflexivity.
Defined.

(** X15. Two uploads never get the same stored name or the same URL unless
    [uuidv4()] returned the same identifier for both: with identifiers of
    equal length, different identifiers give different names, and equal
    names mean the same identifier and the same original name. *)
Theorem stored_names_differ u1 u2 f1 f2 :
  String.length u1 = String.length u2 →
  (storage_filename u1 f1 = storage_filename u2 f2 →
     u1 = u2 ∧ originalname f1 = originalname f2) ∧
  (u1 ≠ u2 → ∀ size1 size2,
     body (upload_stored u1 f1 size1) ≠ body (upload_stored u2 f2 size2)).
Proof.
  intros Hlen.
  assert (Hinj : storage_filename u1 f1 = storage_filename u2 f2 →
                 u1 = u2 ∧ originalname f1 = originalname f2).
  { unfold storage_filename. intros Heq.
    destruct (append_inj_length _ _ _ _ Hlen Heq) as [Hu [= Hname]]. done. }
  split; [done |]. intros Hne size1 size2. unfold upload_stored. simpl.
  intros [= Hurl _ _]. by destruct (Hinj Hurl).
Qed.

Lemma stored_names_differ_witness :
  body (upload_stored "3f2b8c1e-7a4d-4e9b-9c1a-5d6e7f8a9b0c"
          {| originalname := "clip.mp4"; mimetype := "video/mp4" |} 10) ≠
  body (upload_stored "9a8b7c6d-5e4f-4a3b-8c2d-1e0f9a8b7c6d"
          {| originalname := "clip.mp4"; mimetype := "video/mp4" |} 10).
Proof.
  destruct (stored_names_differ "3f2b8c1e-7a4d-4e9b-9c1a-5d6e7f8a9b0c"
              "9a8b7c6d-5e4f-4a3b-8c2d-1e0f9a8b7c6d"
              {| originalname := "clip.mp4"; mimetype := "video/mp4" |}
              {| originalname := "clip.mp4"; mimetype := "video/mp4" |})
    as [_ H].
  - reflexivity.
  - apply H. discriminate.
Defined.

(** ** Listing *)

(** X16. The listing route answers 500 when the directory cannot be read
    and otherwise 200 with the directory's entries, in their order, cut down
    to exactly those whose lower-cased extension is one of .mp4, .mkv, .avi,
    .mov, .webm; each listed name would pass the extension test of the
    upload filter. *)
Theorem videos_route_lists_video_files lower_ext :
  status (videos_route lower_ext None) = 500 ∧
  ∀ files, ∃ videos,
    videos_route lower_ext (Some files) =
      {| status := 200; body := VideosBody videos |} ∧
    videos `sublist_of` files ∧
    (∀ file, file ∈ videos ↔
       file ∈ files ∧ lower_ext file ∈ video_extensions) ∧
    (∀ file, file ∈ videos → allowedTypes_test (lower_ext file) = true).
Proof.
  split; [done |]. intros files. eexists. split; [reflexivity |].
  split_and!.
  - apply sublist_filter.
  - intros file. rewrite list_elem_of_filter. tauto.
  - intros file [Hext _]%list_elem_of_filter. revert Hext.
    unfold video_extensions. rewrite !elem_of_cons.
    intros [-> | [-> | [-> | [-> | [-> | H]]]]];
      [| | | | | by apply not_elem_of_nil in H]; reflexivity.
Qed.

Lemma videos_route_lists_video_files_witness :
  ∃ videos,
    videos_route last_dot_suffix
      (Some ["a.mp4"; "notes.txt"; "movie.mp4v"; "b.webm"]) =
      {| status := 200; body := VideosBody videos |} ∧
    "b.webm" ∈ videos ∧ ¬ "movie.mp4v" ∈ videos.
Proof.
  destruct (videos_route_lists_video_files last_dot_suffix) as [_ H].
  destruct (H ["a.mp4"; "notes.txt"; "movie.mp4v"; "b.webm"])
    as (videos & Heq & _ & Hiff & _).
  exists videos. split; [exact Heq |]. rewrite !Hiff. split.
  - split; apply (bool_decide_unpack _); vm_compute; exact I.
  - intros [_ Hext]. revert Hext.
    apply (proj1 (bool_decide_eq_false _)). vm_compute. reflexivity.
Defined.
